(** * Company records service: validation, orchestration and storage access

    A shallow embedding of the Go backend
    ([backend/internal/service/company.go],
    [backend/internal/repository/company.go], the HTTP handlers and the
    [companies] table of the migration) and the properties of its
    request-validation-and-persistence pipeline.

    Go values are modelled as follows.
    - [string] is a sequence of bytes: Rocq's [string]; [len] counts bytes.
    - [int] values are only compared, never computed with: [Z].
    - a pointer used as an optional value ([*int], [*string], [*api.Company])
      is an [option].
    - an [error] is a value of the inductive type [error]; the [nil] error is
      [None].
    - a function returning [(T, error)] returns a pair. *)

From Stdlib Require Import ZArith List String Ascii Bool Lia.
From Stdlib Require Import Permutation Sorted.
Import ListNotations.

Local Open Scope string_scope.
Local Open Scope Z_scope.

(** ** Go's error values *)

(** The error values that occur in the program.  [ErrNoRows] is the sentinel
    [sql.ErrNoRows]; [ErrDriver] is any other error produced by
    [database/sql] or the driver below it; [Errorf msg] is
    [fmt.Errorf(msg)] with no verb; [ErrorfW prefix e] is
    [fmt.Errorf(prefix + "%w", e)]. *)
Inductive error : Type :=
| ErrNoRows
| ErrDriver (msg : string)
| Errorf (msg : string)
| ErrorfW (prefix : string) (e : error).

(** [err.Error()] *)
Fixpoint Error (e : error) : string :=
  match e with
  | ErrNoRows => "sql: no rows in result set"
  | ErrDriver msg => msg
  | Errorf msg => msg
  | ErrorfW prefix e' => prefix ++ Error e'
  end.

(** [err == sql.ErrNoRows]: identity with the sentinel. *)
Definition is_ErrNoRows (e : error) : bool :=
  match e with
  | ErrNoRows => true
  | _ => false
  end.

(** [len(s)] *)
Definition len (s : string) : Z := Z.of_nat (String.length s).

(** The value of a byte of a string. *)
Definition byte_of (c : ascii) : Z := Z.of_nat (nat_of_ascii c).

(** ** [unicode/utf8] and [unicode] *)

Module utf8.

Definition RuneError : Z := 0xFFFD.
Definition RuneSelf : Z := 0x80.
Definition UTFMax : nat := 4.

Definition maskx : Z := 0x3F.
Definition mask2 : Z := 0x1F.
Definition mask3 : Z := 0x0F.
Definition mask4 : Z := 0x07.
Definition locb : Z := 0x80.
Definition hicb : Z := 0xBF.

(** The table [first] together with [acceptRanges]: for a leading byte, the
    length of the sequence and the range accepted for the second byte;
    [None] is the entry [xx] (not a leading byte).  ASCII bytes are handled
    before the table is consulted. *)
Definition first (b : Z) : option (nat * Z * Z) :=
  if b <? 0xC2 then None
  else if b <=? 0xDF then Some (2%nat, locb, hicb)
  else if b =? 0xE0 then Some (3%nat, 0xA0, hicb)
  else if b <=? 0xEC then Some (3%nat, locb, hicb)
  else if b =? 0xED then Some (3%nat, locb, 0x9F)
  else if b <=? 0xEF then Some (3%nat, locb, hicb)
  else if b =? 0xF0 then Some (4%nat, 0x90, hicb)
  else if b <=? 0xF3 then Some (4%nat, locb, hicb)
  else if b =? 0xF4 then Some (4%nat, locb, 0x8F)
  else None.

(** [utf8.DecodeRuneInString]: the first rune of [s] and its width in bytes;
    [(RuneError, 0)] for the empty string and [(RuneError, 1)] for an invalid
    encoding. *)
Definition DecodeRuneInString (s : list ascii) : Z * nat :=
  match s with
  | [] => (RuneError, 0%nat)
  | c0 :: t0 =>
    let s0 := byte_of c0 in
    if s0 <? RuneSelf then (s0, 1%nat)
    else
      match first s0 with
      | None => (RuneError, 1%nat)
      | Some (sz, lo, hi) =>
        if (List.length s <? sz)%nat then (RuneError, 1%nat)
        else
          match t0 with
          | [] => (RuneError, 1%nat)
          | c1 :: t1 =>
            let s1 := byte_of c1 in
            if (s1 <? lo) || (hi <? s1) then (RuneError, 1%nat)
            else if (sz <=? 2)%nat then
              (Z.lor (Z.shiftl (Z.land s0 mask2) 6) (Z.land s1 maskx), 2%nat)
            else
              match t1 with
              | [] => (RuneError, 1%nat)
              | c2 :: t2 =>
                let s2 := byte_of c2 in
                if (s2 <? locb) || (hicb <? s2) then (RuneError, 1%nat)
                else if (sz <=? 3)%nat then
                  (Z.lor (Z.lor (Z.shiftl (Z.land s0 mask3) 12)
                                (Z.shiftl (Z.land s1 maskx) 6))
                         (Z.land s2 maskx), 3%nat)
                else
                  match t2 with
                  | [] => (RuneError, 1%nat)
                  | c3 :: _ =>
                    let s3 := byte_of c3 in
                    if (s3 <? locb) || (hicb <? s3) then (RuneError, 1%nat)
                    else
                      (Z.lor (Z.lor (Z.lor (Z.shiftl (Z.land s0 mask4) 18)
                                           (Z.shiftl (Z.land s1 maskx) 12))
                                    (Z.shiftl (Z.land s2 maskx) 6))
                             (Z.land s3 maskx), 4%nat)
                  end
              end
          end
      end
  end.

(** [utf8.RuneStart]: the byte is not a continuation byte. *)
Definition RuneStart (b : Z) : bool := negb (Z.land b 0xC0 =? 0x80).

(** The loop of [DecodeLastRuneInString] that walks back from [start] to the
    limit [lim] looking for the first byte of a rune; it runs at most
    [UTFMax] times.  The result is the index it stops at, or [None] when it
    went below index 0. *)
Fixpoint backToRuneStart (n : nat) (s : list ascii) (start lim : nat) : option nat :=
  match n with
  | O => Some start
  | S n' =>
    if (start <? lim)%nat then Some start
    else if RuneStart (byte_of (nth start s zero)) then Some start
    else
      match start with
      | O => None
      | S start' => backToRuneStart n' s start' lim
      end
  end.

(** [utf8.DecodeLastRuneInString]: the last rune of [s] and its width. *)
Definition DecodeLastRuneInString (s : list ascii) : Z * nat :=
  let end_ := List.length s in
  match end_ with
  | O => (RuneError, 0%nat)
  | S start0 =>
    let r := byte_of (nth start0 s zero) in
    if r <? RuneSelf then (r, 1%nat)
    else
      let lim := (end_ - UTFMax)%nat in
      let start :=
        match start0 with
        | O => 0%nat
        | S start1 =>
          match backToRuneStart UTFMax s start1 lim with
          | Some i => i
          | None => 0%nat
          end
        end in
      let '(r, size) := DecodeRuneInString (skipn start s) in
      if (start + size =? end_)%nat then (r, size) else (RuneError, 1%nat)
  end.

(** [utf8.RuneCountInString]: the number of runes of [s], an invalid byte
    counting as one rune of width 1; the loop [for range s] steps by the
    width of each rune, at most [length s] times. *)
Fixpoint RuneCount_from (fuel : nat) (s : list ascii) : nat :=
  match fuel with
  | O => 0%nat
  | S fuel' =>
    match s with
    | [] => 0%nat
    | _ => S (RuneCount_from fuel' (skipn (snd (DecodeRuneInString s)) s))
    end
  end.

Definition RuneCountInString (s : list ascii) : nat :=
  RuneCount_from (List.length s) s.

End utf8.

Module unicode.

Definition MaxLatin1 : Z := 0xFF.

(** [unicode.IsSpace]: the Latin-1 spaces, and beyond them the ranges of the
    table [White_Space]. *)
Definition IsSpace (r : Z) : bool :=
  if r <=? MaxLatin1 then
    (r =? 0x09) || (r =? 0x0A) || (r =? 0x0B) || (r =? 0x0C) || (r =? 0x0D)
    || (r =? 0x20) || (r =? 0x85) || (r =? 0xA0)
  else
    (r =? 0x1680) || ((0x2000 <=? r) && (r <=? 0x200A))
    || (r =? 0x2028) || (r =? 0x2029) || (r =? 0x202F) || (r =? 0x205F)
    || (r =? 0x3000).

End unicode.

(** ** [strings] *)

Module strings.

(** The table [asciiSpace]. *)
Definition asciiSpace (b : Z) : bool :=
  (b =? 0x09) || (b =? 0x0A) || (b =? 0x0B) || (b =? 0x0C) || (b =? 0x0D)
  || (b =? 0x20).

(** The loop of [indexFunc(s, f, false)], [for i, r := range s], from byte
    index [i] on: the index of the first rune that [f] rejects, [None] for
    Go's [-1].  Every rune takes at least one byte, so [length s - i] steps
    are enough. *)
Fixpoint indexFunc_from (fuel : nat) (s : list ascii) (f : Z -> bool) (i : nat)
  : option nat :=
  match fuel with
  | O => None
  | S fuel' =>
    match skipn i s with
    | [] => None
    | rest =>
      let '(r, size) := utf8.DecodeRuneInString rest in
      if negb (f r) then Some i else indexFunc_from fuel' s f (i + size)
    end
  end.

Definition indexFunc (s : list ascii) (f : Z -> bool) : option nat :=
  indexFunc_from (List.length s) s f 0.

(** The loop of [lastIndexFunc(s, f, false)], [for i := len(s); i > 0;],
    from index [i] down. *)
Fixpoint lastIndexFunc_from (fuel : nat) (s : list ascii) (f : Z -> bool) (i : nat)
  : option nat :=
  match fuel with
  | O => None
  | S fuel' =>
    match i with
    | O => None
    | S _ =>
      let '(r, size) := utf8.DecodeLastRuneInString (firstn i s) in
      let i' := (i - size)%nat in
      if negb (f r) then Some i' else lastIndexFunc_from fuel' s f i'
    end
  end.

Definition lastIndexFunc (s : list ascii) (f : Z -> bool) : option nat :=
  lastIndexFunc_from (List.length s) s f (List.length s).

(** [strings.TrimLeftFunc] *)
Definition TrimLeftFunc (s : list ascii) (f : Z -> bool) : list ascii :=
  match indexFunc s f with
  | None => []
  | Some i => skipn i s
  end.

(** [strings.TrimRightFunc] *)
Definition TrimRightFunc (s : list ascii) (f : Z -> bool) : list ascii :=
  match lastIndexFunc s f with
  | Some i =>
    if utf8.RuneSelf <=? byte_of (nth i s zero) then
      let '(_, wid) := utf8.DecodeRuneInString (skipn i s) in
      firstn (i + wid) s
    else firstn (S i) s
  | None => firstn 0 s
  end.

(** [strings.TrimFunc] *)
Definition TrimFunc (s : list ascii) (f : Z -> bool) : list ascii :=
  TrimRightFunc (TrimLeftFunc s f) f.

(** The first loop of [TrimSpace], over [s[start:]]: [inl r] when it ends
    with [s[start:] = r], [inr v] when it returns [v] from the function. *)
Fixpoint TrimSpace_start (rest : list ascii) : list ascii + list ascii :=
  match rest with
  | [] => inl []
  | c :: t =>
    if utf8.RuneSelf <=? byte_of c then inr (TrimFunc rest unicode.IsSpace)
    else if negb (asciiSpace (byte_of c)) then inl rest
    else TrimSpace_start t
  end.

(** The second loop of [TrimSpace], over [r = s[start:]] with [stop] counted
    from [start]. *)
Fixpoint TrimSpace_stop (r : list ascii) (stop : nat) : list ascii :=
  match stop with
  | O => firstn 0 r
  | S stop' =>
    let c := byte_of (nth stop' r zero) in
    if utf8.RuneSelf <=? c then TrimRightFunc (firstn stop r) unicode.IsSpace
    else if negb (asciiSpace c) then firstn stop r
    else TrimSpace_stop r stop'
  end.

(** [strings.TrimSpace] *)
Definition TrimSpace (s : string) : string :=
  match TrimSpace_start (list_ascii_of_string s) with
  | inr v => string_of_list_ascii v
  | inl r => string_of_list_ascii (TrimSpace_stop r (List.length r))
  end.

End strings.

(** ** A state monad for the layers that call the store *)

Definition M (S A : Type) : Type := S -> A * S.

Definition ret {S A : Type} (a : A) : M S A := fun s => (a, s).

Definition bind {S A B : Type} (c : M S A) (k : A -> M S B) : M S B :=
  fun s => let '(a, s') := c s in k a s'.

Declare Scope go_scope.
Delimit Scope go_scope with go.
Notation "x <- c ;; k" := (bind c (fun x => k))
  (at level 61, c at next level, right associativity) : go_scope.
Notation "' p <- c ;; k" := (bind c (fun x => let p := x in k))
  (at level 61, p pattern, c at next level, right associativity) : go_scope.
Notation "c ;; k" := (bind c (fun _ => k))
  (at level 61, right associativity) : go_scope.
Local Open Scope go_scope.

(** ** [backend/api] *)

Module api.

(** [openapi_types.UUID], a 128-bit value. *)
Definition UUID : Type := N.

(** Modelled from the spec: the package [backend/api] is generated from the
    OpenAPI description and is not among the sources; the structs below have
    the fields the repository scans and the service reads, with the types of
    section 3 of the specification ([time.Time] as microseconds). *)
Module Company.
Record t : Type := mk {
  Id : UUID;
  Jurisdiction : string;
  CompanyName : string;
  CompanyAddress : string;
  NatureOfBusiness : option string;
  NumberOfDirectors : option Z;
  NumberOfShareholders : option Z;
  SecCode : option string;
  DateCreated : Z;
  DateUpdated : Z
}.
End Company.

Module CreateCompanyRequest.
Record t : Type := mk {
  Jurisdiction : string;
  CompanyName : string;
  CompanyAddress : string;
  NatureOfBusiness : option string;
  NumberOfDirectors : option Z;
  NumberOfShareholders : option Z;
  SecCode : option string
}.
End CreateCompanyRequest.

Module GetCompaniesParams.
Record t : Type := mk {
  Limit : option Z;
  Offset : option Z;
  Jurisdiction : option string
}.
End GetCompaniesParams.

Module CompaniesResponse.
Record t : Type := mk {
  Companies : list Company.t;
  Total : Z;
  Limit : Z;
  Offset : Z
}.
End CompaniesResponse.

Module ErrorResponse.
Record t : Type := mk {
  Error : bool;
  Msg : string
}.
End ErrorResponse.

End api.

(** ** The store: the table [companies] behind [database/sql] *)

Module sql.

(** What the environment decides for one statement: whether the driver
    reports a failure instead of a result ([fault]); for an [ORDER BY], which
    of two rows with equal sort keys comes first ([tiebreak a b] puts [a]
    before [b]), which SQL leaves to the executor; the values
    [uuid_generate_v4()] and [CURRENT_TIMESTAMP] yield. *)
Record Turn : Type := mkTurn {
  fault : option error;
  tiebreak : api.Company.t -> api.Company.t -> bool;
  uuid : api.UUID;
  now : Z
}.

(** The database: the rows of [companies] in heap order, the number of
    statements received so far, and the environment's decision for each
    statement to come. *)
Record DB : Type := mkDB {
  companies : list api.Company.t;
  clock : nat;
  oracle : nat -> Turn
}.

Definition turn (db : DB) : Turn := oracle db (clock db).

(** One statement: it fails with the turn's fault, or [body] runs on the
    rows; either way the turn is used up.  The fault is reported instead of
    the effect: an error that the driver reports once the statement has
    taken effect ([RowsAffected], the [Scan] of a [RETURNING] row) has no
    counterpart here, and nothing below is stated about it. *)
Definition statement {A : Type}
  (body : Turn -> list api.Company.t -> (A + error) * list api.Company.t)
  : M DB (A + error) :=
  fun db =>
    let t := turn db in
    match fault t with
    | Some e => (inr e, mkDB (companies db) (S (clock db)) (oracle db))
    | None =>
      let '(r, rows) := body t (companies db) in
      (r, mkDB rows (S (clock db)) (oracle db))
    end.

(** [WHERE jurisdiction = $1], or no [WHERE] clause. *)
Definition where_jurisdiction (jurisdiction : option string) (c : api.Company.t)
  : bool :=
  match jurisdiction with
  | None => true
  | Some j => String.eqb (api.Company.Jurisdiction c) j
  end.

(** [WHERE id = $1] *)
Definition where_id (id : api.UUID) (c : api.Company.t) : bool :=
  N.eqb (api.Company.Id c) id.

(** [ORDER BY date_created DESC]: [c] goes before [d] when it is more recent,
    or as recent and the executor chooses so. *)
Definition before (tb : api.Company.t -> api.Company.t -> bool)
  (c d : api.Company.t) : bool :=
  (api.Company.DateCreated d <? api.Company.DateCreated c)
  || ((api.Company.DateCreated c =? api.Company.DateCreated d) && tb c d).

Fixpoint place (tb : api.Company.t -> api.Company.t -> bool)
  (c : api.Company.t) (l : list api.Company.t) : list api.Company.t :=
  match l with
  | [] => [c]
  | d :: l' => if before tb c d then c :: l else d :: place tb c l'
  end.

Definition order_by_date_created_desc
  (tb : api.Company.t -> api.Company.t -> bool) (l : list api.Company.t)
  : list api.Company.t :=
  fold_right (place tb) [] l.

(** [SELECT COUNT( * ) FROM companies [WHERE jurisdiction = $1]] *)
Definition SelectCount (jurisdiction : option string) : M DB (Z + error) :=
  statement (fun _ rows =>
    (inl (Z.of_nat (List.length (filter (where_jurisdiction jurisdiction) rows))),
     rows)).

(** [SELECT ... FROM companies [WHERE jurisdiction = $1]
     ORDER BY date_created DESC LIMIT $n OFFSET $m]; PostgreSQL rejects a
    negative [LIMIT] or [OFFSET]. *)
Definition SelectPage (jurisdiction : option string) (limit offset : Z)
  : M DB (list api.Company.t + error) :=
  statement (fun t rows =>
    if limit <? 0 then (inr (ErrDriver "LIMIT must not be negative"), rows)
    else if offset <? 0 then (inr (ErrDriver "OFFSET must not be negative"), rows)
    else
      (inl (firstn (Z.to_nat limit)
              (skipn (Z.to_nat offset)
                 (order_by_date_created_desc (tiebreak t)
                    (filter (where_jurisdiction jurisdiction) rows)))),
       rows)).

(** [SELECT ... FROM companies WHERE id = $1] read with [QueryRowContext] and
    [Scan], which reports [sql.ErrNoRows] when the result has no row. *)
Definition SelectByID (id : api.UUID) : M DB (api.Company.t + error) :=
  statement (fun _ rows =>
    match find (where_id id) rows with
    | Some c => (inl c, rows)
    | None => (inr ErrNoRows, rows)
    end).

(** The number of bytes the first [n] characters of [s] take. *)
Fixpoint bytes_of_characters (n : nat) (s : list ascii) : nat :=
  match n with
  | O => 0%nat
  | S n' =>
    match s with
    | [] => 0%nat
    | _ =>
      let size := snd (utf8.DecodeRuneInString s) in
      (size + bytes_of_characters n' (skipn size s))%nat
    end
  end.

(** A value assigned to a column of type [VARCHAR(n)]: kept when it has at
    most [n] characters; cut to its first [n] characters, without an error,
    when every character beyond them is a space.  (Any other longer value is
    one the engine rejects, which is a fault of the turn.) *)
Definition varchar (n : nat) (value : string) : string :=
  let s := list_ascii_of_string value in
  if (utf8.RuneCountInString s <=? n)%nat then value
  else
    let k := bytes_of_characters n s in
    if forallb (fun c => byte_of c =? 0x20) (skipn k s)
    then string_of_list_ascii (firstn k s)
    else value.

(** [INSERT INTO companies (...) VALUES ($1, ..., $7) RETURNING ...]: the
    identifier and both timestamps come from the column defaults, and the
    columns [jurisdiction VARCHAR(20)], [company_name VARCHAR(255)] and
    [sec_code VARCHAR(50)] take their values as [varchar] gives them.  A
    statement the engine rejects (a constraint of the schema, the
    connection) is a fault of the turn. *)
Definition Insert (jurisdiction company_name company_address : string)
  (nature_of_business : option string)
  (number_of_directors number_of_shareholders : option Z)
  (sec_code : option string) : M DB (api.Company.t + error) :=
  statement (fun t rows =>
    let c := api.Company.mk (uuid t) (varchar 20 jurisdiction)
               (varchar 255 company_name) company_address
               nature_of_business number_of_directors number_of_shareholders
               (option_map (varchar 50) sec_code) (now t) (now t) in
    (inl c, (rows ++ [c])%list)).

(** [DELETE FROM companies WHERE id = $1], with the number of rows affected. *)
Definition Delete (id : api.UUID) : M DB (Z + error) :=
  statement (fun _ rows =>
    (inl (Z.of_nat (List.length (filter (where_id id) rows))),
     filter (fun c => negb (where_id id c)) rows)).

End sql.

(** ** [backend/internal/repository] *)

Module repository.

(** The interface [CompanyRepository], over the state [St] its
    implementation works on. *)
Class CompanyRepository (St : Type) : Type := {
  GetAll : Z -> Z -> option string -> M St (list api.Company.t * Z * option error);
  GetByID : api.UUID -> M St (option api.Company.t * option error);
  Create : api.CreateCompanyRequest.t -> M St (option api.Company.t * option error);
  Delete : api.UUID -> M St (option error)
}.

(** The methods of [PostgresCompanyRepository]. *)
Module Postgres.

Definition GetAll (limit offset : Z) (jurisdiction : option string)
  : M sql.DB (list api.Company.t * Z * option error) :=
  (* First, get the total count *)
  r <- sql.SelectCount jurisdiction ;;
  match r with
  | inr err => ret ([], 0, Some err)
  | inl total =>
    (* Then get the companies with pagination *)
    rows <- sql.SelectPage jurisdiction limit offset ;;
    match rows with
    | inr err => ret ([], 0, Some err)
    | inl rows =>
      let companies := fold_left (fun cs company => (cs ++ [company])%list) rows [] in
      ret (companies, total, None)
    end
  end.

Definition GetByID (id : api.UUID) : M sql.DB (option api.Company.t * option error) :=
  r <- sql.SelectByID id ;;
  match r with
  | inr err =>
    if is_ErrNoRows err then ret (None, None) (* Company not found *)
    else ret (None, Some err)
  | inl company => ret (Some company, None)
  end.

Definition Create (req : api.CreateCompanyRequest.t)
  : M sql.DB (option api.Company.t * option error) :=
  r <- sql.Insert (api.CreateCompanyRequest.Jurisdiction req)
                  (api.CreateCompanyRequest.CompanyName req)
                  (api.CreateCompanyRequest.CompanyAddress req)
                  (api.CreateCompanyRequest.NatureOfBusiness req)
                  (api.CreateCompanyRequest.NumberOfDirectors req)
                  (api.CreateCompanyRequest.NumberOfShareholders req)
                  (api.CreateCompanyRequest.SecCode req) ;;
  match r with
  | inr err => ret (None, Some err)
  | inl company => ret (Some company, None)
  end.

Definition Delete (id : api.UUID) : M sql.DB (option error) :=
  r <- sql.Delete id ;;
  match r with
  | inr err => ret (Some err)
  | inl rowsAffected =>
    if rowsAffected =? 0 then ret (Some ErrNoRows) (* Company not found *)
    else ret None
  end.

End Postgres.

#[export] Instance PostgresCompanyRepository : CompanyRepository sql.DB := {
  GetAll := Postgres.GetAll;
  GetByID := Postgres.GetByID;
  Create := Postgres.Create;
  Delete := Postgres.Delete
}.

(** A call of a method of the interface, as a test double records it. *)
Inductive Call : Type :=
| CallGetAll (limit offset : Z) (jurisdiction : option string)
| CallGetByID (id : api.UUID)
| CallCreate (req : api.CreateCompanyRequest.t)
| CallDelete (id : api.UUID).

(** A repository that keeps the list of the calls it received and hands each
    to the repository it wraps. *)
Definition recording {St A : Type} (call : Call) (m : M St A)
  : M (list Call * St) A :=
  fun '(calls, st) => let '(a, st') := m st in (a, ((calls ++ [call])%list, st')).

Definition Recording {St : Type} (R : CompanyRepository St)
  : CompanyRepository (list Call * St) := {|
  GetAll := fun limit offset jurisdiction =>
    recording (CallGetAll limit offset jurisdiction)
              (GetAll (CompanyRepository := R) limit offset jurisdiction);
  GetByID := fun id => recording (CallGetByID id) (GetByID (CompanyRepository := R) id);
  Create := fun req => recording (CallCreate req) (Create (CompanyRepository := R) req);
  Delete := fun id => recording (CallDelete id) (Delete (CompanyRepository := R) id)
|}.

End repository.

(** ** [backend/internal/service] *)

Module service.

Section companyService.

Context {St : Type} {repo : repository.CompanyRepository St}.

(** [validateCreateRequest]: the [nil] error when the request is valid. *)
Definition validateCreateRequest (req : api.CreateCompanyRequest.t) : option error :=
  (* Validate company name *)
  if String.eqb (strings.TrimSpace (api.CreateCompanyRequest.CompanyName req)) "" then
    Some (Errorf "company name is required")
  else if len (api.CreateCompanyRequest.CompanyName req) >? 255 then
    Some (Errorf "company name cannot exceed 255 characters")
  (* Validate company address *)
  else if String.eqb (strings.TrimSpace (api.CreateCompanyRequest.CompanyAddress req)) "" then
    Some (Errorf "company address is required")
  else
    (* Validate jurisdiction *)
    let validJurisdictions := ["UK"; "Singapore"; "Caymens"] in
    let isValidJurisdiction :=
      existsb (fun j => String.eqb (api.CreateCompanyRequest.Jurisdiction req) j)
              validJurisdictions in
    if negb isValidJurisdiction then
      Some (Errorf "invalid jurisdiction: must be one of [UK Singapore Caymens]")
    else
      (* Validate optional fields *)
      match
        match api.CreateCompanyRequest.NumberOfDirectors req with
        | Some n =>
          if (n <? 1) || (n >? 100) then
            Some (Errorf "number of directors must be between 1 and 100")
          else None
        | None => None
        end
      with
      | Some err => Some err
      | None =>
        match api.CreateCompanyRequest.NumberOfShareholders req with
        | Some n =>
          if (n <? 1) || (n >? 1000) then
            Some (Errorf "number of shareholders must be between 1 and 1000")
          else None
        | None => None
        end
      end.

(** [ListCompanies] *)
Definition ListCompanies (params : api.GetCompaniesParams.t)
  : M St (option api.CompaniesResponse.t * option error) :=
  (* Set default values *)
  match
    match api.GetCompaniesParams.Limit params with
    | Some l =>
      if (l <? 1) || (l >? 100) then inr (Errorf "limit must be between 1 and 100")
      else inl l
    | None => inl 20
    end
  with
  | inr err => ret (None, Some err)
  | inl limit =>
    match
      match api.GetCompaniesParams.Offset params with
      | Some o =>
        if o <? 0 then inr (Errorf "offset must be non-negative") else inl o
      | None => inl 0
      end
    with
    | inr err => ret (None, Some err)
    | inl offset =>
      let jurisdiction :=
        match api.GetCompaniesParams.Jurisdiction params with
        | Some j => Some j
        | None => None
        end in
      '(companies, total, err) <- repository.GetAll limit offset jurisdiction ;;
      match err with
      | Some err => ret (None, Some (ErrorfW "failed to retrieve companies: " err))
      | None =>
        ret (Some (api.CompaniesResponse.mk companies total limit offset), None)
      end
    end
  end.

(** [GetCompanyByID] *)
Definition GetCompanyByID (id : api.UUID) : M St (option api.Company.t * option error) :=
  '(company, err) <- repository.GetByID id ;;
  match err with
  | Some err => ret (None, Some (ErrorfW "failed to retrieve company: " err))
  | None =>
    match company with
    | None => ret (None, Some (Errorf "company not found"))
    | Some company => ret (Some company, None)
    end
  end.

(** [CreateCompany] *)
Definition CreateCompany (req : api.CreateCompanyRequest.t)
  : M St (option api.Company.t * option error) :=
  (* Validate required fields *)
  match validateCreateRequest req with
  | Some err => ret (None, Some err)
  | None =>
    '(company, err) <- repository.Create req ;;
    match err with
    | Some err => ret (None, Some (ErrorfW "failed to create company: " err))
    | None => ret (company, None)
    end
  end.

(** [DeleteCompany] *)
Definition DeleteCompany (id : api.UUID) : M St (option error) :=
  err <- repository.Delete id ;;
  match err with
  | Some err =>
    if String.eqb (Error err) "sql: no rows in result set" then
      ret (Some (Errorf "company not found"))
    else ret (Some (ErrorfW "failed to delete company: " err))
  | None => ret None
  end.

End companyService.

End service.

(** ** The HTTP boundary: package [handlers] *)

Module zap.

Inductive Level : Type := InfoLevel | ErrorLevel.

(** A log entry: level, message, and the fields ([zap.String(k, v)] as
    [(k, v)], [zap.Error(err)] as [("error", err.Error())]). *)
Record Entry : Type := mkEntry {
  level : Level;
  message : string;
  fields : list (string * string)
}.

End zap.

Module http.

Definition StatusOK : Z := 200.
Definition StatusCreated : Z := 201.
Definition StatusNoContent : Z := 204.
Definition StatusBadRequest : Z := 400.
Definition StatusNotFound : Z := 404.
Definition StatusInternalServerError : Z := 500.

(** What a handler reads of a request: the query parameters
    ([r.URL.Query().Get], the empty string when absent), the path parameters
    ([chi.URLParam]) and the body. *)
Record Request : Type := mkRequest {
  Query : string -> string;
  URLParam : string -> string;
  Body : string
}.

(** The value a handler hands to [json.NewEncoder(w).Encode]. *)
Inductive Data : Type :=
| ErrorData (r : api.ErrorResponse.t)
| CompaniesData (r : option api.CompaniesResponse.t)
| CompanyData (c : option api.Company.t).

(** What a handler writes to the [http.ResponseWriter]. *)
Record Response : Type := mkResponse {
  ContentType : string;
  StatusCode : Z;
  Written : option Data
}.

End http.

Module handlers.

Section CompanyHandlers.

Context {St : Type} {repo : repository.CompanyRepository St}.

(** The parsers of the libraries the handlers call: [strconv.Atoi],
    [uuid.Parse], and [json.NewDecoder(r.Body).Decode] into a
    [CreateCompanyRequest]. *)
Variable Atoi : string -> Z + error.
Variable uuid_Parse : string -> api.UUID + error.
Variable Decode : string -> api.CreateCompanyRequest.t + error.

(** A handler works on its logger's output and the state of the service. *)
Definition H (A : Type) : Type := M (list zap.Entry * St) A.

Definition logger (lvl : zap.Level) (msg : string) (fields : list (string * string))
  : H unit :=
  fun '(entries, st) => (tt, ((entries ++ [zap.mkEntry lvl msg fields])%list, st)).

Definition call {A : Type} (m : M St A) : H A :=
  fun '(entries, st) => let '(a, st') := m st in (a, (entries, st')).

(** [sendJSONResponse]: the header, the status code and the value handed
    to the encoder.  The encoder is taken to succeed: the entry the source
    logs when [Encode] fails has no counterpart here, and nothing below is
    stated about the number of entries a handler logs. *)
Definition sendJSONResponse (statusCode : Z) (data : http.Data) : H http.Response :=
  ret (http.mkResponse "application/json" statusCode (Some data)).

(** [sendErrorResponse] *)
Definition sendErrorResponse (statusCode : Z) (message : string) : H http.Response :=
  let response := api.ErrorResponse.mk true message in
  sendJSONResponse statusCode (http.ErrorData response).

(** [GetCompanies] handles GET /api/v1/companies *)
Definition GetCompanies (r : http.Request) : H http.Response :=
  logger zap.InfoLevel "Getting companies list" [] ;;
  (* Parse query parameters *)
  let limitStr := http.Query r "limit" in
  match
    (if negb (String.eqb limitStr "") then
       match Atoi limitStr with
       | inl limit => inl (Some limit)
       | inr _ => inr tt
       end
     else inl None)
  with
  | inr _ => sendErrorResponse http.StatusBadRequest "Invalid limit parameter"
  | inl Limit =>
    let offsetStr := http.Query r "offset" in
    match
      (if negb (String.eqb offsetStr "") then
         match Atoi offsetStr with
         | inl offset => inl (Some offset)
         | inr _ => inr tt
         end
       else inl None)
    with
    | inr _ => sendErrorResponse http.StatusBadRequest "Invalid offset parameter"
    | inl Offset =>
      let jurisdictionStr := http.Query r "jurisdiction" in
      let Jurisdiction :=
        if negb (String.eqb jurisdictionStr "") then Some jurisdictionStr else None in
      let params := api.GetCompaniesParams.mk Limit Offset Jurisdiction in
      (* Call service *)
      '(response, err) <- call (service.ListCompanies params) ;;
      match err with
      | Some err =>
        logger zap.ErrorLevel "Failed to get companies" [("error", Error err)] ;;
        sendErrorResponse http.StatusInternalServerError "Failed to retrieve companies"
      | None => sendJSONResponse http.StatusOK (http.CompaniesData response)
      end
    end
  end.

(** [GetCompanyByID] handles GET /api/v1/companies/{id} *)
Definition GetCompanyByID (r : http.Request) : H http.Response :=
  let idStr := http.URLParam r "id" in
  logger zap.InfoLevel "Getting company by ID" [("id", idStr)] ;;
  (* Parse UUID *)
  match uuid_Parse idStr with
  | inr err =>
    logger zap.ErrorLevel "Invalid UUID format" [("id", idStr); ("error", Error err)] ;;
    sendErrorResponse http.StatusBadRequest "Invalid company ID format"
  | inl id =>
    (* Call service *)
    '(company, err) <- call (service.GetCompanyByID id) ;;
    match err with
    | Some err =>
      if String.eqb (Error err) "company not found" then
        sendErrorResponse http.StatusNotFound "Company not found"
      else
        logger zap.ErrorLevel "Failed to get company" [("error", Error err)] ;;
        sendErrorResponse http.StatusInternalServerError "Failed to retrieve company"
    | None => sendJSONResponse http.StatusOK (http.CompanyData company)
    end
  end.

(** [CreateCompany] handles POST /api/v1/companies *)
Definition CreateCompany (r : http.Request) : H http.Response :=
  logger zap.InfoLevel "Creating new company" [] ;;
  (* Parse request body *)
  match Decode (http.Body r) with
  | inr err =>
    logger zap.ErrorLevel "Failed to decode request body" [("error", Error err)] ;;
    sendErrorResponse http.StatusBadRequest "Invalid request body"
  | inl req =>
    (* Call service *)
    '(company, err) <- call (service.CreateCompany req) ;;
    match err with
    | Some err =>
      logger zap.ErrorLevel "Failed to create company" [("error", Error err)] ;;
      sendErrorResponse http.StatusBadRequest (Error err)
    | None => sendJSONResponse http.StatusCreated (http.CompanyData company)
    end
  end.

(** [DeleteCompany] handles DELETE /api/v1/companies/{id} *)
Definition DeleteCompany (r : http.Request) : H http.Response :=
  let idStr := http.URLParam r "id" in
  logger zap.InfoLevel "Deleting company" [("id", idStr)] ;;
  (* Parse UUID *)
  match uuid_Parse idStr with
  | inr err =>
    logger zap.ErrorLevel "Invalid UUID format" [("id", idStr); ("error", Error err)] ;;
    sendErrorResponse http.StatusBadRequest "Invalid company ID format"
  | inl id =>
    (* Call service *)
    err <- call (service.DeleteCompany id) ;;
    match err with
    | Some err =>
      if String.eqb (Error err) "company not found" then
        sendErrorResponse http.StatusNotFound "Company not found"
      else
        logger zap.ErrorLevel "Failed to delete company" [("error", Error err)] ;;
        sendErrorResponse http.StatusInternalServerError "Failed to delete company"
    | None => ret (http.mkResponse "" http.StatusNoContent None)
    end
  end.

End CompanyHandlers.

End handlers.

(** ** [backend/internal/config] *)

Module config.

Record Config : Type := mk {
  Port : string;
  PostgresDB : string;
  PostgresPass : string;
  PostgresUser : string;
  PostgresHost : string;
  PostgresPort : string
}.

(** The environment of the process: a variable is set to a value, or unset. *)
Definition Environ : Type := string -> option string.

(** [os.Getenv]: the value of the variable, the empty string when it is
    unset. *)
Definition Getenv (env : Environ) (key : string) : string :=
  match env key with
  | Some value => value
  | None => ""
  end.

(** [getEnv] *)
Definition getEnv (env : Environ) (key defaultValue : string) : string :=
  let value := Getenv env key in
  if negb (String.eqb value "") then value else defaultValue.

(** [Load] *)
Definition Load (env : Environ) : Config :=
  mk (getEnv env "PORT" "8080")
     (getEnv env "POSTGRES_DB" "lothrop_db")
     (getEnv env "POSTGRES_PASSWORD" "password")
     (getEnv env "POSTGRES_USER" "postgres")
     (getEnv env "POSTGRES_HOST" "localhost")
     (getEnv env "POSTGRES_PORT" "5432").

End config.

(** * The specification's side *)

Module spec.

(** A validation rule: the condition a request must meet, and the message of
    the error when it does not. *)
Definition rule : Type := (api.CreateCompanyRequest.t -> bool) * string.

(** Rules evaluated in order; the first failure produces the error. *)
Fixpoint first_failure (rules : list rule) (req : api.CreateCompanyRequest.t)
  : option error :=
  match rules with
  | [] => None
  | (holds, msg) :: rest =>
    if holds req then first_failure rest req else Some (Errorf msg)
  end.

Definition nonempty_after_trim (s : string) : bool :=
  negb (String.eqb (strings.TrimSpace s) "").

(** The number of characters of a string: the runes of its UTF-8 text. *)
Definition characters (s : string) : Z :=
  Z.of_nat (utf8.RuneCountInString (list_ascii_of_string s)).

Definition name_required (req : api.CreateCompanyRequest.t) : bool :=
  nonempty_after_trim (api.CreateCompanyRequest.CompanyName req).

(** "at most 255 characters after trim" *)
Definition name_at_most_255_after_trim (req : api.CreateCompanyRequest.t) : bool :=
  characters (strings.TrimSpace (api.CreateCompanyRequest.CompanyName req)) <=? 255.

(** "at most 255 characters", of the name as given *)
Definition name_at_most_255_characters (req : api.CreateCompanyRequest.t) : bool :=
  characters (api.CreateCompanyRequest.CompanyName req) <=? 255.

(** at most 255 bytes as given: the test of the code, [len] of a Go string
    being its number of bytes *)
Definition name_at_most_255_as_given (req : api.CreateCompanyRequest.t) : bool :=
  len (api.CreateCompanyRequest.CompanyName req) <=? 255.

Definition address_required (req : api.CreateCompanyRequest.t) : bool :=
  nonempty_after_trim (api.CreateCompanyRequest.CompanyAddress req).

Definition jurisdictions : list string := ["UK"; "Singapore"; "Caymens"].

Definition jurisdiction_allowed (req : api.CreateCompanyRequest.t) : bool :=
  if in_dec string_dec (api.CreateCompanyRequest.Jurisdiction req) jurisdictions
  then true else false.

Definition within (lo hi : Z) (n : option Z) : bool :=
  match n with
  | None => true
  | Some n => (lo <=? n) && (n <=? hi)
  end.

Definition directors_in_range (req : api.CreateCompanyRequest.t) : bool :=
  within 1 100 (api.CreateCompanyRequest.NumberOfDirectors req).

Definition shareholders_in_range (req : api.CreateCompanyRequest.t) : bool :=
  within 1 1000 (api.CreateCompanyRequest.NumberOfShareholders req).

Definition rules_after (name_length : api.CreateCompanyRequest.t -> bool)
  : list rule :=
  [ (name_required, "company name is required");
    (name_length, "company name cannot exceed 255 characters");
    (address_required, "company address is required");
    (jurisdiction_allowed,
     "invalid jurisdiction: must be one of [UK Singapore Caymens]");
    (directors_in_range, "number of directors must be between 1 and 100");
    (shareholders_in_range, "number of shareholders must be between 1 and 1000") ].

(** The rules as the specification words them. *)
Definition stated_rules : list rule := rules_after name_at_most_255_after_trim.

(** The rules with the length of the name taken as given, in characters. *)
Definition rules_in_characters : list rule := rules_after name_at_most_255_characters.

(** The rules with the test of the code on the length of the name. *)
Definition rules : list rule := rules_after name_at_most_255_as_given.

(** The errors validation can produce. *)
Definition validation_error (e : error) : Prop :=
  exists msg, e = Errorf msg /\ In msg (map snd rules).

(** The pagination values in effect for a list request. *)
Definition effective_limit (params : api.GetCompaniesParams.t) : Z :=
  match api.GetCompaniesParams.Limit params with
  | Some l => l
  | None => 20
  end.

Definition effective_offset (params : api.GetCompaniesParams.t) : Z :=
  match api.GetCompaniesParams.Offset params with
  | Some o => o
  | None => 0
  end.

Definition limit_in_range (params : api.GetCompaniesParams.t) : Prop :=
  1 <= effective_limit params <= 100.

Definition offset_in_range (params : api.GetCompaniesParams.t) : Prop :=
  0 <= effective_offset params.

(** The next [n] statements the database receives run: the driver reports no
    failure for them. *)
Definition runs (db : sql.DB) (n : nat) : Prop :=
  forall k, (k < n)%nat -> sql.fault (sql.oracle db (sql.clock db + k)) = None.

(** The next statement fails with [e]. *)
Definition fails (db : sql.DB) (e : error) : Prop :=
  sql.fault (sql.turn db) = Some e.

(** The identifier names a stored record. *)
Definition stored (db : sql.DB) (id : api.UUID) : Prop :=
  exists c, In c (sql.companies db) /\ api.Company.Id c = id.

(** The rows a list request is about: those the jurisdiction filter keeps. *)
Definition matching (jurisdiction : option string) (db : sql.DB)
  : list api.Company.t :=
  filter (sql.where_jurisdiction jurisdiction) (sql.companies db).

(** Two list requests in sequence, for the page at offset 0 and the page at
    offset [limit]: the two pages returned. *)
Definition two_pages (limit : Z) (jurisdiction : option string) (db : sql.DB)
  : list api.Company.t * list api.Company.t :=
  let '((page1, _, _), db1) :=
    repository.GetAll (CompanyRepository := repository.PostgresCompanyRepository)
      limit 0 jurisdiction db in
  let '((page2, _, _), _) :=
    repository.GetAll (CompanyRepository := repository.PostgresCompanyRepository)
      limit limit jurisdiction db1 in
  (page1, page2).

(** The pages together are the records, each once: no duplicate, no gap. *)
Definition cover (pages : list api.Company.t * list api.Company.t)
  (records : list api.Company.t) : Prop :=
  NoDup (fst pages ++ snd pages) /\ Permutation (fst pages ++ snd pages) records.

(** [c] was created after [d]. *)
Definition newer (c d : api.Company.t) : Prop :=
  api.Company.DateCreated d < api.Company.DateCreated c.

(** [c] was created after [d] or at the same time. *)
Definition newer_or_same (c d : api.Company.t) : Prop :=
  api.Company.DateCreated d <= api.Company.DateCreated c.

(** An error response with a fixed message. *)
Definition opaque (statusCode : Z) (message : string) : http.Response :=
  http.mkResponse "application/json" statusCode
    (Some (http.ErrorData (api.ErrorResponse.mk true message))).

(** An optional text that has at most [n] characters when present. *)
Definition fits (n : Z) (text : option string) : Prop :=
  match text with
  | None => True
  | Some t => characters t <= n
  end.

(** The stored records a jurisdiction filter is about: all of them when
    there is no filter, those of that jurisdiction otherwise. *)
Definition of_jurisdiction (jurisdiction : option string) (c : api.Company.t) : Prop :=
  match jurisdiction with
  | None => True
  | Some j => api.Company.Jurisdiction c = j
  end.

End spec.

(** A company name of 256 bytes: one letter and 255 spaces. *)
Definition padded_name : string :=
  String "a" (string_of_list_ascii (repeat " "%char 255)).

Definition padded_request : api.CreateCompanyRequest.t :=
  api.CreateCompanyRequest.mk "UK" padded_name "1 Main St" None None None None.

(** ** Sample data *)

(** An environment in which every statement runs, rows with equal sort keys
    keep their heap order, and the defaults yield fixed values. *)
Definition calm : nat -> sql.Turn :=
  fun _ => sql.mkTurn None (fun _ _ => true) 7%N 1700000000.

(** A request whose name and address carry leading and trailing whitespace. *)
Definition spaced_request : api.CreateCompanyRequest.t :=
  api.CreateCompanyRequest.mk "UK" "  Acme Ltd  " " 1 Main St " None (Some 3) None None.

Definition acme : api.Company.t :=
  api.Company.mk 1%N "UK" "Acme Ltd" "1 Main St" None None None None 100 100.

Definition db_acme : sql.DB := sql.mkDB [acme] 0 calm.

(** Two records created at the same instant: an empty store whose
    environment gives two insertions the same time, and whose executor
    resolves the tie one way for the fourth statement and the other way
    afterwards; the two requests; and the store once both are created. *)
Definition twin_turns : nat -> sql.Turn :=
  fun k => sql.mkTurn None (fun _ _ => Nat.eqb k 3) (N.of_nat (S k)) 100.

Definition no_twins : sql.DB := sql.mkDB [] 0 twin_turns.

Definition alpha_request : api.CreateCompanyRequest.t :=
  api.CreateCompanyRequest.mk "UK" "Alpha Ltd" "1 Main St" None None None None.

Definition beta_request : api.CreateCompanyRequest.t :=
  api.CreateCompanyRequest.mk "UK" "Beta Ltd" "2 Main St" None None None None.

Definition twin_a : api.Company.t :=
  api.Company.mk 1%N "UK" "Alpha Ltd" "1 Main St" None None None None 100 100.

Definition twin_b : api.Company.t :=
  api.Company.mk 2%N "UK" "Beta Ltd" "2 Main St" None None None None 100 100.

Definition twins : sql.DB := sql.mkDB [twin_a; twin_b] 2 twin_turns.

(** A store that cannot be reached: every statement fails in the driver. *)
Definition refused : error :=
  ErrDriver "dial tcp 10.0.0.5:5432: connect: connection refused".

Definition db_down : sql.DB :=
  sql.mkDB [acme] 0 (fun _ => sql.mkTurn (Some refused) (fun _ _ => true) 7%N 1700000000).

(** A valid creation request, a POST that carries it, and the decoder's
    answer for that body. *)
Definition acme_request : api.CreateCompanyRequest.t :=
  api.CreateCompanyRequest.mk "UK" "Acme Ltd" "1 Main St" None None None None.

Definition post_acme : http.Request :=
  http.mkRequest (fun _ => "") (fun _ => "") "acme.json".

Definition decode_acme : string -> api.CreateCompanyRequest.t + error :=
  fun body =>
    if String.eqb body "acme.json" then inl acme_request
    else inr (Errorf "unexpected end of JSON input").

(** A request with a jurisdiction outside the allowed set. *)
Definition france_request : api.CreateCompanyRequest.t :=
  api.CreateCompanyRequest.mk "France" "Acme SA" "1 rue de Rivoli" None None None None.

(** The same environment over two records created at different instants. *)
Definition globex : api.Company.t :=
  api.Company.mk 2%N "Singapore" "Globex Pte" "2 Marina Blvd" None None None None 200 200.

Definition pair : sql.DB :=
  sql.mkDB [acme; globex] 0
    (fun k => sql.mkTurn None (fun _ _ => Nat.eqb k 1) 7%N 1700000000).

(** ** Further notions *)

Module facts.

(** The request a stored row would have come from. *)
Definition request_of (c : api.Company.t) : api.CreateCompanyRequest.t :=
  api.CreateCompanyRequest.mk
    (api.Company.Jurisdiction c) (api.Company.CompanyName c)
    (api.Company.CompanyAddress c) (api.Company.NatureOfBusiness c)
    (api.Company.NumberOfDirectors c) (api.Company.NumberOfShareholders c)
    (api.Company.SecCode c).

(** A row that meets the rules of [validateCreateRequest]. *)
Definition valid_row (c : api.Company.t) : Prop :=
  service.validateCreateRequest (request_of c) = None.

(** The shapes of the responses the handlers write: no content, an error
    envelope with a client or server status, or a payload with a success
    status. *)
Definition well_formed (response : http.Response) : Prop :=
  response = http.mkResponse "" http.StatusNoContent None
  \/ (exists status msg,
        In status [http.StatusBadRequest; http.StatusNotFound;
                   http.StatusInternalServerError]
        /\ response = spec.opaque status msg)
  \/ (exists data,
        response = http.mkResponse "application/json" http.StatusOK
                     (Some (http.CompaniesData data)))
  \/ (exists status data,
        In status [http.StatusOK; http.StatusCreated]
        /\ response = http.mkResponse "application/json" status
                        (Some (http.CompanyData data))).

(** A query parameter that holds an integer: absent (the empty string), or
    text that [Atoi] reads as [n]. *)
Definition parameter (Atoi : string -> Z + error) (text : string) (value : option Z)
  : Prop :=
  (text = "" /\ value = None)
  \/ (text <> "" /\ exists n, Atoi text = inl n /\ value = Some n).

(** The parameters a list request carries. *)
Definition parsed (Atoi : string -> Z + error) (r : http.Request)
  (params : api.GetCompaniesParams.t) : Prop :=
  parameter Atoi (http.Query r "limit") (api.GetCompaniesParams.Limit params)
  /\ parameter Atoi (http.Query r "offset") (api.GetCompaniesParams.Offset params)
  /\ api.GetCompaniesParams.Jurisdiction params
     = (if String.eqb (http.Query r "jurisdiction") "" then None
        else Some (http.Query r "jurisdiction")).

(** Every byte of the string is ASCII. *)
Definition ascii_only (s : string) : Prop :=
  Forall (fun c => byte_of c < utf8.RuneSelf) (list_ascii_of_string s).

(** Every byte of the string is one of tab, line feed, vertical tab, form
    feed, carriage return, space. *)
Definition blank (s : string) : Prop :=
  Forall (fun c => strings.asciiSpace (byte_of c) = true) (list_ascii_of_string s).

(** The rows with the identifier. *)
Definition affected (id : api.UUID) (db : sql.DB) : list api.Company.t :=
  filter (sql.where_id id) (sql.companies db).

End facts.

(** A parser of unsigned decimal numerals, for requests whose parameters are
    such numerals. *)
Fixpoint decimal_from (s : string) (acc : Z) : Z + error :=
  match s with
  | EmptyString => inl acc
  | String c s' =>
    let d := byte_of c - 48 in
    if (0 <=? d) && (d <=? 9) then decimal_from s' (10 * acc + d)
    else inr (Errorf "invalid syntax")
  end.

Definition decimal (s : string) : Z + error :=
  match s with
  | EmptyString => inr (Errorf "invalid syntax")
  | _ => decimal_from s 0
  end.

(** A parser of identifiers that reads decimal numerals, for requests whose
    path parameter is one. *)
Definition decimal_id (s : string) : api.UUID + error :=
  match decimal s with
  | inl z => inl (Z.to_N z)
  | inr e => inr e
  end.

(** Requests for the list with [?limit=200], for the record [1], the record
    [2] and a malformed identifier. *)
Definition get_limit_200 : http.Request :=
  http.mkRequest (fun k => if String.eqb k "limit" then "200" else "") (fun _ => "") "".

Definition path_id (id : string) : http.Request :=
  http.mkRequest (fun _ => "") (fun k => if String.eqb k "id" then id else "") "".

(** An environment of the process with the port set and the host set to the
    empty string. *)
Definition some_environ : config.Environ :=
  fun k =>
    if String.eqb k "PORT" then Some "9090"
    else if String.eqb k "POSTGRES_HOST" then Some ""
    else None.

(** A request whose name is three spaces. *)
Definition blank_request : api.CreateCompanyRequest.t :=
  api.CreateCompanyRequest.mk "UK" "   " "1 Main St" None None None None.

(** A company name of 128 two-byte characters: 256 bytes. *)
Definition accented_name : string :=
  string_of_list_ascii
    (List.concat (repeat [ascii_of_nat 195; ascii_of_nat 169] 128)).

Definition accented_request : api.CreateCompanyRequest.t :=
  api.CreateCompanyRequest.mk "UK" accented_name "1 Main St" None None None None.

(** A valid request whose sec_code is fifty letters and a space. *)
Definition fifty_letters : string := string_of_list_ascii (repeat "A"%char 50).

Definition long_code_request : api.CreateCompanyRequest.t :=
  api.CreateCompanyRequest.mk "UK" "Acme Ltd" "1 Main St" None None None
    (Some (fifty_letters ++ " ")%string).

(** A store whose driver fails with [sql.ErrNoRows] wrapped by
    [fmt.Errorf] with the bare verb and no text. *)
Definition db_bare_wrap : sql.DB :=
  sql.mkDB [acme] 0
    (fun _ => sql.mkTurn (Some (ErrorfW "" ErrNoRows)) (fun _ _ => true)
                7%N 1700000000).

(** * Properties *)

(** ** Validation *)

Lemma validateCreateRequest_first_failure (req : api.CreateCompanyRequest.t) :
  service.validateCreateRequest req = spec.first_failure spec.rules req.
Proof.
  unfold service.validateCreateRequest, spec.rules, spec.rules_after.
  cbn [spec.first_failure].
  unfold spec.name_required, spec.address_required, spec.nonempty_after_trim,
    spec.name_at_most_255_as_given.
  destruct (String.eqb (strings.TrimSpace _) "") eqn:Hname; cbn [negb]; [reflexivity|].
  rewrite Z.gtb_ltb, Z.ltb_antisym.
  destruct (len _ <=? 255) eqn:Hlen; cbn [negb]; [|reflexivity].
  destruct (String.eqb (strings.TrimSpace (api.CreateCompanyRequest.CompanyAddress req)) "")
    eqn:Haddr; cbn [negb]; [reflexivity|].
  assert (Hj : existsb (fun j => String.eqb (api.CreateCompanyRequest.Jurisdiction req) j)
                 ["UK"; "Singapore"; "Caymens"] = spec.jurisdiction_allowed req).
  { unfold spec.jurisdiction_allowed, spec.jurisdictions.
    destruct (in_dec string_dec _ _) as [Hin | Hnin].
    - apply existsb_exists. exists (api.CreateCompanyRequest.Jurisdiction req).
      split; [exact Hin | apply String.eqb_refl].
    - apply not_true_is_false. intros Hex. apply existsb_exists in Hex.
      destruct Hex as [j [Hin Heq]]. apply String.eqb_eq in Heq. subst j. auto. }
  rewrite Hj. destruct (spec.jurisdiction_allowed req); cbn [negb]; [|reflexivity].
  unfold spec.directors_in_range, spec.shareholders_in_range, spec.within.
  destruct (api.CreateCompanyRequest.NumberOfDirectors req) as [d|].
  - rewrite Z.gtb_ltb, (Z.ltb_antisym 1 d), (Z.ltb_antisym d 100), <- negb_andb.
    destruct ((1 <=? d) && (d <=? 100)); cbn [negb]; [|reflexivity].
    destruct (api.CreateCompanyRequest.NumberOfShareholders req) as [n|]; [|reflexivity].
    rewrite Z.gtb_ltb, (Z.ltb_antisym 1 n), (Z.ltb_antisym n 1000), <- negb_andb.
    destruct ((1 <=? n) && (n <=? 1000)); reflexivity.
  - destruct (api.CreateCompanyRequest.NumberOfShareholders req) as [n|]; [|reflexivity].
    rewrite Z.gtb_ltb, (Z.ltb_antisym 1 n), (Z.ltb_antisym n 1000), <- negb_andb.
    destruct ((1 <=? n) && (n <=? 1000)); reflexivity.
Qed.

Lemma first_failure_none (rules : list spec.rule) (req : api.CreateCompanyRequest.t) :
  spec.first_failure rules req = None <->
  forall holds msg, In (holds, msg) rules -> holds req = true.
Proof.
  induction rules as [| [h m] rest IH]; cbn [spec.first_failure].
  - split; [intros _ ? ? [] | reflexivity].
  - destruct (h req) eqn:Hh.
    + rewrite IH. split.
      * intros Hrest holds msg [Heq | Hin]; [congruence | eauto].
      * intros Hall holds msg Hin. apply (Hall holds msg). right. exact Hin.
    + split; [discriminate|].
      intros Hall. specialize (Hall h m (or_introl eq_refl)). congruence.
Qed.

Lemma first_failure_some (rules : list spec.rule) (req : api.CreateCompanyRequest.t)
  (e : error) :
  spec.first_failure rules req = Some e ->
  exists msg, e = Errorf msg /\ In msg (map snd rules).
Proof.
  induction rules as [| [h m] rest IH]; cbn [spec.first_failure]; [discriminate|].
  destruct (h req).
  - intros H. destruct (IH H) as [msg [-> Hin]]. exists msg. split; [reflexivity|].
    right. exact Hin.
  - intros [= <-]. exists m. split; [reflexivity | left; reflexivity].
Qed.

Lemma validateCreateRequest_error (req : api.CreateCompanyRequest.t) (e : error) :
  service.validateCreateRequest req = Some e -> spec.validation_error e.
Proof.
  rewrite validateCreateRequest_first_failure. apply first_failure_some.
Qed.

Lemma validateCreateRequest_passes (req : api.CreateCompanyRequest.t) :
  service.validateCreateRequest req = None <->
  spec.name_required req = true
  /\ spec.name_at_most_255_as_given req = true
  /\ spec.address_required req = true
  /\ spec.jurisdiction_allowed req = true
  /\ spec.directors_in_range req = true
  /\ spec.shareholders_in_range req = true.
Proof.
  rewrite validateCreateRequest_first_failure, first_failure_none.
  unfold spec.rules, spec.rules_after. split.
  - intros Hall. repeat split; eapply Hall; cbn [In]; eauto 10.
  - intros (H1 & H2 & H3 & H4 & H5 & H6) holds msg Hin. cbn [In] in Hin.
    repeat destruct Hin as [[= <- <-] | Hin]; try assumption. destruct Hin.
Qed.

(** ** The runes of a string: the loops of [strings] take enough steps *)

Lemma DecodeRuneInString_width (s : list ascii) :
  s <> [] ->
  (1 <= snd (utf8.DecodeRuneInString s) <= List.length s)%nat.
Proof.
  destruct s as [| c0 t0]; [contradiction|]. intros _.
  unfold utf8.DecodeRuneInString.
  destruct (byte_of c0 <? utf8.RuneSelf); [cbn; lia|].
  destruct (utf8.first (byte_of c0)) as [[[sz lo] hi]|]; [|cbn; lia].
  destruct (List.length (c0 :: t0) <? sz)%nat; [cbn; lia|].
  destruct t0 as [| c1 t1]; [cbn; lia|].
  destruct ((byte_of c1 <? lo) || (hi <? byte_of c1)); [cbn; lia|].
  destruct (sz <=? 2)%nat; [cbn; lia|].
  destruct t1 as [| c2 t2]; [cbn; lia|].
  destruct ((byte_of c2 <? utf8.locb) || (utf8.hicb <? byte_of c2)); [cbn; lia|].
  destruct (sz <=? 3)%nat; [cbn; lia|].
  destruct t2 as [| c3 t3]; [cbn; lia|].
  destruct ((byte_of c3 <? utf8.locb) || (utf8.hicb <? byte_of c3)); cbn; lia.
Qed.

Lemma indexFunc_from_steps (s : list ascii) (f : Z -> bool) (fuel fuel' i : nat) :
  (List.length s - i <= fuel)%nat -> (List.length s - i <= fuel')%nat ->
  strings.indexFunc_from fuel s f i = strings.indexFunc_from fuel' s f i.
Proof.
  revert fuel' i. induction fuel as [| fuel IH]; intros fuel' i Hfuel Hfuel'.
  - assert (Hend : skipn i s = []) by (apply skipn_all_iff; lia).
    destruct fuel'; cbn [strings.indexFunc_from]; [reflexivity|].
    rewrite Hend. reflexivity.
  - destruct fuel' as [| fuel'].
    + assert (Hend : skipn i s = []) by (apply skipn_all_iff; lia).
      cbn [strings.indexFunc_from]. rewrite Hend. reflexivity.
    + cbn [strings.indexFunc_from].
      destruct (skipn i s) as [| c rest] eqn:Hrest; [reflexivity|].
      pose proof (DecodeRuneInString_width (c :: rest) ltac:(discriminate)) as Hwidth.
      destruct (utf8.DecodeRuneInString (c :: rest)) as [r size]. cbn [snd] in Hwidth.
      destruct (negb (f r)); [reflexivity|].
      apply IH; lia.
Qed.

Lemma backToRuneStart_le (n : nat) (s : list ascii) (start lim i : nat) :
  utf8.backToRuneStart n s start lim = Some i -> (i <= start)%nat.
Proof.
  revert start. induction n as [| n IH]; intros start; cbn [utf8.backToRuneStart].
  - intros [= <-]. lia.
  - destruct (start <? lim)%nat; [intros [= <-]; lia|].
    destruct (utf8.RuneStart _); [intros [= <-]; lia|].
    destruct start as [| start']; [discriminate|].
    intros H. apply IH in H. lia.
Qed.

Lemma DecodeLastRuneInString_width (s : list ascii) :
  s <> [] ->
  (1 <= snd (utf8.DecodeLastRuneInString s) <= List.length s)%nat.
Proof.
  intros Hne. unfold utf8.DecodeLastRuneInString.
  destruct (List.length s) as [| start0] eqn:Hlen.
  { destruct s; [contradiction | discriminate]. }
  destruct (byte_of (nth start0 s zero) <? utf8.RuneSelf); [cbn; lia|].
  set (start := match start0 with
                | O => 0%nat
                | S start1 =>
                  match utf8.backToRuneStart utf8.UTFMax s start1
                          (S start0 - utf8.UTFMax) with
                  | Some i => i
                  | None => 0%nat
                  end
                end).
  assert (Hstart : (start < S start0)%nat).
  { subst start. destruct start0 as [| start1]; [lia|].
    destruct (utf8.backToRuneStart _ _ _ _) as [i|] eqn:Hback; [|lia].
    apply backToRuneStart_le in Hback. lia. }
  destruct (utf8.DecodeRuneInString (skipn start s)) as [r size].
  destruct (Nat.eqb_spec (start + size) (S start0)); cbn [snd]; lia.
Qed.

Lemma lastIndexFunc_from_steps (s : list ascii) (f : Z -> bool) (fuel fuel' i : nat) :
  (i <= List.length s)%nat -> (i <= fuel)%nat -> (i <= fuel')%nat ->
  strings.lastIndexFunc_from fuel s f i = strings.lastIndexFunc_from fuel' s f i.
Proof.
  revert fuel' i. induction fuel as [| fuel IH]; intros fuel' i Hi Hfuel Hfuel'.
  - assert (i = 0%nat) by lia. subst i. destruct fuel'; reflexivity.
  - destruct fuel' as [| fuel'].
    + assert (i = 0%nat) by lia. subst i. reflexivity.
    + cbn [strings.lastIndexFunc_from].
      destruct i as [| i']; [reflexivity|].
      assert (Hne : firstn (S i') s <> []).
      { intros Hnil. apply (f_equal (@List.length ascii)) in Hnil.
        rewrite length_firstn in Hnil. cbn [List.length] in Hnil. lia. }
      pose proof (DecodeLastRuneInString_width _ Hne) as Hwidth.
      destruct (utf8.DecodeLastRuneInString (firstn (S i') s)) as [r size].
      cbn [snd] in Hwidth. rewrite length_firstn in Hwidth.
      destruct (negb (f r)); [reflexivity|].
      apply IH; lia.
Qed.

(** Trimming never lengthens a string. *)
Lemma TrimRightFunc_length (s : list ascii) (f : Z -> bool) :
  (List.length (strings.TrimRightFunc s f) <= List.length s)%nat.
Proof.
  unfold strings.TrimRightFunc.
  destruct (strings.lastIndexFunc s f) as [i|].
  - destruct (utf8.RuneSelf <=? _).
    + destruct (utf8.DecodeRuneInString _) as [r wid]. rewrite length_firstn. lia.
    + rewrite length_firstn. lia.
  - cbn. lia.
Qed.

Lemma TrimLeftFunc_length (s : list ascii) (f : Z -> bool) :
  (List.length (strings.TrimLeftFunc s f) <= List.length s)%nat.
Proof.
  unfold strings.TrimLeftFunc.
  destruct (strings.indexFunc s f) as [i|]; [rewrite length_skipn|cbn]; lia.
Qed.

Lemma TrimSpace_stop_length (r : list ascii) (stop : nat) :
  (List.length (strings.TrimSpace_stop r stop) <= List.length r)%nat.
Proof.
  induction stop as [| stop IH]; cbn [strings.TrimSpace_stop]; [cbn; lia|].
  destruct (utf8.RuneSelf <=? _).
  - etransitivity; [apply TrimRightFunc_length|]. rewrite length_firstn. lia.
  - destruct (negb _); [rewrite length_firstn; lia | exact IH].
Qed.

Lemma string_of_list_ascii_length (l : list ascii) :
  String.length (string_of_list_ascii l) = List.length l.
Proof. induction l as [| c l IH]; cbn; [reflexivity | now rewrite IH]. Qed.

Lemma list_ascii_of_string_length (s : string) :
  List.length (list_ascii_of_string s) = String.length s.
Proof. induction s as [| c s IH]; cbn; [reflexivity | now rewrite IH]. Qed.

Lemma TrimSpace_length (s : string) : len (strings.TrimSpace s) <= len s.
Proof.
  unfold len, strings.TrimSpace. apply inj_le.
  rewrite <- (list_ascii_of_string_length s).
  induction (list_ascii_of_string s) as [| c t IH]; cbn [strings.TrimSpace_start].
  - cbn. lia.
  - destruct (utf8.RuneSelf <=? byte_of c).
    + rewrite string_of_list_ascii_length. unfold strings.TrimFunc.
      etransitivity; [apply TrimRightFunc_length | apply TrimLeftFunc_length].
    + destruct (negb (strings.asciiSpace (byte_of c))).
      * rewrite string_of_list_ascii_length. apply TrimSpace_stop_length.
      * destruct (strings.TrimSpace_start t) as [r | v]; cbn [List.length]; lia.
Qed.

Lemma RuneCount_from_le (fuel : nat) (s : list ascii) :
  (utf8.RuneCount_from fuel s <= List.length s)%nat.
Proof.
  revert s. induction fuel as [| fuel IH]; intros s; cbn [utf8.RuneCount_from];
    [lia|].
  destruct s as [| c t]; [cbn; lia|].
  pose proof (DecodeRuneInString_width (c :: t) ltac:(discriminate)) as Hwidth.
  specialize (IH (skipn (snd (utf8.DecodeRuneInString (c :: t))) (c :: t))).
  rewrite length_skipn in IH. lia.
Qed.

(** The count takes enough steps: more fuel than the bytes of the string
    changes nothing. *)
Lemma RuneCount_from_enough (fuel : nat) (s : list ascii) :
  (List.length s <= fuel)%nat ->
  utf8.RuneCount_from fuel s = utf8.RuneCountInString s.
Proof.
  unfold utf8.RuneCountInString.
  remember (List.length s) as n eqn:Hn.
  assert (Hle : (List.length s <= n)%nat) by lia. clear Hn.
  revert n s Hle. induction fuel as [| fuel IH]; intros n s Hn Hfuel.
  - destruct n; [reflexivity | lia].
  - destruct n as [| n].
    + destruct s; [reflexivity | cbn in Hn; lia].
    + cbn [utf8.RuneCount_from]. destruct s as [| c t]; [reflexivity|].
      pose proof (DecodeRuneInString_width (c :: t) ltac:(discriminate)) as Hwidth.
      f_equal. apply IH; rewrite ?length_skipn; lia.
Qed.

(** A string has at most as many characters as bytes. *)
Lemma characters_le_len (s : string) : spec.characters s <= len s.
Proof.
  unfold spec.characters, len, utf8.RuneCountInString. apply inj_le.
  rewrite <- (list_ascii_of_string_length s). apply RuneCount_from_le.
Qed.

Lemma varchar_fits (n : nat) (value : string) :
  spec.characters value <= Z.of_nat n -> sql.varchar n value = value.
Proof.
  unfold spec.characters, sql.varchar. intros Hfits. cbv zeta.
  destruct (Nat.leb_spec (utf8.RuneCountInString (list_ascii_of_string value)) n);
    [reflexivity | lia].
Qed.

Lemma varchar_jurisdiction (j : string) :
  In j spec.jurisdictions -> sql.varchar 20 j = j.
Proof.
  intros [<- | [<- | [<- | []]]]; reflexivity.
Qed.

(** The columns of a validated request that the store keeps as they are. *)
Lemma validated_columns (req : api.CreateCompanyRequest.t) :
  service.validateCreateRequest req = None ->
  sql.varchar 20 (api.CreateCompanyRequest.Jurisdiction req)
  = api.CreateCompanyRequest.Jurisdiction req
  /\ sql.varchar 255 (api.CreateCompanyRequest.CompanyName req)
     = api.CreateCompanyRequest.CompanyName req.
Proof.
  intros Hvalid. apply validateCreateRequest_passes in Hvalid.
  destruct Hvalid as (_ & Hlen & _ & Hjur & _). split.
  - apply varchar_jurisdiction. unfold spec.jurisdiction_allowed in Hjur.
    destruct (in_dec string_dec _ _) as [Hin | _]; [exact Hin | discriminate].
  - apply varchar_fits. unfold spec.name_at_most_255_as_given in Hlen.
    apply Z.leb_le in Hlen.
    pose proof (characters_le_len (api.CreateCompanyRequest.CompanyName req)).
    change (Z.of_nat 255) with 255. lia.
Qed.

Lemma sec_code_fits (sec_code : option string) :
  spec.fits 50 sec_code -> option_map (sql.varchar 50) sec_code = sec_code.
Proof.
  destruct sec_code as [code|]; [|reflexivity]. cbn [spec.fits option_map].
  intros Hfits. f_equal. apply varchar_fits. exact Hfits.
Qed.

(** A request the code accepts meets the rules as the specification words
    them: the length test on the name as given is the stricter one. *)
Lemma stated_rules_hold_of_accepted (req : api.CreateCompanyRequest.t) :
  service.validateCreateRequest req = None ->
  spec.first_failure spec.stated_rules req = None.
Proof.
  intros Hvalid. apply validateCreateRequest_passes in Hvalid.
  destruct Hvalid as (H1 & H2 & H3 & H4 & H5 & H6).
  apply first_failure_none. intros holds msg Hin.
  unfold spec.stated_rules, spec.rules_after in Hin. cbn [In] in Hin.
  repeat destruct Hin as [[= <- <-] | Hin]; try assumption; [|destruct Hin].
  unfold spec.name_at_most_255_after_trim, spec.name_at_most_255_as_given in *.
  apply Z.leb_le. apply Z.leb_le in H2.
  pose proof (TrimSpace_length (api.CreateCompanyRequest.CompanyName req)).
  pose proof (characters_le_len
                (strings.TrimSpace (api.CreateCompanyRequest.CompanyName req))).
  lia.
Qed.

(** The test of the code on the length of the name and the rule in
    characters agree on a name that takes at most 255 bytes and on a name
    of more than 255 characters. *)
Lemma name_length_agrees (req : api.CreateCompanyRequest.t) :
  len (api.CreateCompanyRequest.CompanyName req) <= 255
  \/ 255 < spec.characters (api.CreateCompanyRequest.CompanyName req) ->
  spec.name_at_most_255_as_given req = spec.name_at_most_255_characters req.
Proof.
  unfold spec.name_at_most_255_as_given, spec.name_at_most_255_characters.
  pose proof (characters_le_len (api.CreateCompanyRequest.CompanyName req)).
  intros [Hbytes | Hcharacters].
  - rewrite (proj2 (Z.leb_le _ _) Hbytes). symmetry. apply Z.leb_le. lia.
  - rewrite (proj2 (Z.leb_gt _ _)) by lia. symmetry. apply Z.leb_gt. lia.
Qed.

Lemma rules_in_characters_first_failure (req : api.CreateCompanyRequest.t) :
  spec.name_required req = false
  \/ len (api.CreateCompanyRequest.CompanyName req) <= 255
  \/ 255 < spec.characters (api.CreateCompanyRequest.CompanyName req) ->
  service.validateCreateRequest req
  = spec.first_failure spec.rules_in_characters req.
Proof.
  intros Hname. rewrite validateCreateRequest_first_failure.
  unfold spec.rules, spec.rules_in_characters, spec.rules_after.
  cbn [spec.first_failure].
  destruct (spec.name_required req) eqn:Hrequired; [|reflexivity].
  destruct Hname as [Hblank | Hlength]; [discriminate|].
  rewrite (name_length_agrees req Hlength). reflexivity.
Qed.

Lemma rules_in_characters_hold (req : api.CreateCompanyRequest.t) :
  spec.first_failure spec.rules_in_characters req = None <->
  spec.name_required req = true
  /\ spec.name_at_most_255_characters req = true
  /\ spec.address_required req = true
  /\ spec.jurisdiction_allowed req = true
  /\ spec.directors_in_range req = true
  /\ spec.shareholders_in_range req = true.
Proof.
  rewrite first_failure_none.
  unfold spec.rules_in_characters, spec.rules_after. split.
  - intros Hall. repeat split; eapply Hall; cbn [In]; eauto 10.
  - intros (H1 & H2 & H3 & H4 & H5 & H6) holds msg Hin. cbn [In] in Hin.
    repeat destruct Hin as [[= <- <-] | Hin]; try assumption. destruct Hin.
Qed.

(** C1, as amended: the rules are, in this order, name required (non-empty
    after trimming), name at most 255 characters as given (untrimmed),
    address required (non-empty after trimming), jurisdiction one of UK,
    Singapore, Caymens, directors in [1,100] when present, shareholders in
    [1,1000] when present.  For a request whose name is blank, takes at
    most 255 bytes or has more than 255 characters, [validateCreateRequest]
    returns the error of the first rule that fails, and none when every
    rule holds; every request it accepts satisfies all the rules; and a
    request whose name takes at most 255 bytes is accepted exactly when it
    satisfies all the rules. *)
Theorem validateCreateRequest_rules_in_order (req : api.CreateCompanyRequest.t) :
  let name := api.CreateCompanyRequest.CompanyName req in
  let all_rules_hold :=
    spec.name_required req = true
    /\ spec.name_at_most_255_characters req = true
    /\ spec.address_required req = true
    /\ spec.jurisdiction_allowed req = true
    /\ spec.directors_in_range req = true
    /\ spec.shareholders_in_range req = true in
  (strings.TrimSpace name = "" \/ len name <= 255 \/ 255 < spec.characters name ->
   service.validateCreateRequest req
   = spec.first_failure spec.rules_in_characters req)
  /\ (service.validateCreateRequest req = None -> all_rules_hold)
  /\ (len name <= 255 ->
      (service.validateCreateRequest req = None <-> all_rules_hold)).
Proof.
  cbv zeta. split; [|split].
  - intros Hname. apply rules_in_characters_first_failure.
    destruct Hname as [Hblank | Hlength]; [left | right; exact Hlength].
    unfold spec.name_required, spec.nonempty_after_trim. rewrite Hblank.
    reflexivity.
  - intros Hvalid. apply rules_in_characters_hold.
    rewrite <- rules_in_characters_first_failure; [exact Hvalid|].
    right. left. apply validateCreateRequest_passes in Hvalid.
    destruct Hvalid as (_ & Hlength & _). apply Z.leb_le. exact Hlength.
  - intros Hlength. rewrite <- rules_in_characters_hold.
    rewrite rules_in_characters_first_failure by (right; left; exact Hlength).
    reflexivity.
Qed.

(** C1, as stated, fails: a name of one letter and 255 spaces is a single
    character after trimming, so every stated rule holds, and the request is
    rejected for the length of its name. *)
Lemma validateCreateRequest_measures_untrimmed_name :
  strings.TrimSpace padded_name = "a"
  /\ spec.first_failure spec.stated_rules padded_request = None
  /\ service.validateCreateRequest padded_request
     = Some (Errorf "company name cannot exceed 255 characters").
Proof. repeat split; vm_compute; reflexivity. Qed.

(** The test is [len(req.CompanyName) > 255], and [len] counts bytes: a
    name of 128 characters of two bytes each satisfies every rule and is
    rejected as exceeding 255 characters. *)
Lemma validateCreateRequest_counts_bytes :
  spec.characters accented_name = 128
  /\ len accented_name = 256
  /\ spec.first_failure spec.rules_in_characters accented_request = None
  /\ service.validateCreateRequest accented_request
     = Some (Errorf "company name cannot exceed 255 characters").
Proof. repeat split; vm_compute; reflexivity. Qed.

(** ** Listing: pagination defaults and bounds *)

Section ListCompanies.

Context {St : Type} {repo : repository.CompanyRepository St}.
Variable params : api.GetCompaniesParams.t.

Lemma ListCompanies_rejects_limit (st : St) :
  ~ spec.limit_in_range params ->
  service.ListCompanies params st
  = ((None, Some (Errorf "limit must be between 1 and 100")), st).
Proof.
  unfold spec.limit_in_range, spec.effective_limit, service.ListCompanies.
  destruct (api.GetCompaniesParams.Limit params) as [l|]; [|lia].
  intros Hl. rewrite Z.gtb_ltb.
  destruct (Z.ltb_spec l 1); [reflexivity|].
  destruct (Z.ltb_spec 100 l); [reflexivity | lia].
Qed.

Lemma ListCompanies_rejects_offset (st : St) :
  spec.limit_in_range params -> ~ spec.offset_in_range params ->
  service.ListCompanies params st
  = ((None, Some (Errorf "offset must be non-negative")), st).
Proof.
  unfold spec.limit_in_range, spec.effective_limit, spec.offset_in_range,
    spec.effective_offset, service.ListCompanies.
  intros Hl Ho.
  assert (Hlimit : match api.GetCompaniesParams.Limit params with
                   | Some l =>
                     if (l <? 1) || (l >? 100)
                     then inr (Errorf "limit must be between 1 and 100")
                     else inl l
                   | None => inl 20
                   end = inl (spec.effective_limit params)).
  { unfold spec.effective_limit.
    destruct (api.GetCompaniesParams.Limit params) as [l|]; [|reflexivity].
    rewrite Z.gtb_ltb. destruct (Z.ltb_spec l 1); [lia|].
    destruct (Z.ltb_spec 100 l); [lia | reflexivity]. }
  rewrite Hlimit.
  destruct (api.GetCompaniesParams.Offset params) as [o|]; [|lia].
  destruct (Z.ltb_spec o 0); [reflexivity | lia].
Qed.

Lemma ListCompanies_calls_GetAll (st : St) :
  spec.limit_in_range params -> spec.offset_in_range params ->
  service.ListCompanies params st
  = let limit := spec.effective_limit params in
    let offset := spec.effective_offset params in
    let '((companies, total, err), st') :=
      repository.GetAll limit offset (api.GetCompaniesParams.Jurisdiction params) st in
    (match err with
     | Some e => (None, Some (ErrorfW "failed to retrieve companies: " e))
     | None => (Some (api.CompaniesResponse.mk companies total limit offset), None)
     end, st').
Proof.
  unfold spec.limit_in_range, spec.effective_limit, spec.offset_in_range,
    spec.effective_offset, service.ListCompanies.
  intros Hl Ho.
  destruct (api.GetCompaniesParams.Limit params) as [l|];
    destruct (api.GetCompaniesParams.Offset params) as [o|];
    destruct (api.GetCompaniesParams.Jurisdiction params) as [j|];
    repeat match goal with
           | |- context [?a >? ?b] => rewrite (Z.gtb_ltb a b)
           | |- context [?a <? ?b] => destruct (Z.ltb_spec a b); try lia
           end;
    cbn [orb]; unfold bind, ret; cbv zeta;
    match goal with
    | |- context [repository.GetAll ?a ?b ?c ?d] =>
      destruct (repository.GetAll a b c d) as [[[companies total] [e|]] st']
    end; reflexivity.
Qed.

End ListCompanies.

(** C2: a limit outside [1,100] or a negative offset makes [ListCompanies]
    fail with the validation error of that parameter, leaving the repository
    uncalled; otherwise the repository's [GetAll] is called once, with the
    limit given or 20 and the offset given or 0, and a successful response
    carries that limit and that offset. *)
Theorem ListCompanies_limit_offset {St : Type} (R : repository.CompanyRepository St)
  (params : api.GetCompaniesParams.t) (calls : list repository.Call) (st : St) :
  let run := service.ListCompanies (repo := repository.Recording R) params (calls, st) in
  let limit := spec.effective_limit params in
  let offset := spec.effective_offset params in
  let jurisdiction := api.GetCompaniesParams.Jurisdiction params in
  (api.GetCompaniesParams.Limit params = None -> limit = 20)
  /\ (api.GetCompaniesParams.Offset params = None -> offset = 0)
  /\ (~ spec.limit_in_range params ->
      run = ((None, Some (Errorf "limit must be between 1 and 100")), (calls, st)))
  /\ (spec.limit_in_range params -> ~ spec.offset_in_range params ->
      run = ((None, Some (Errorf "offset must be non-negative")), (calls, st)))
  /\ (spec.limit_in_range params -> spec.offset_in_range params ->
      forall companies total err st',
        repository.GetAll (CompanyRepository := R) limit offset jurisdiction st
        = ((companies, total, err), st') ->
        snd run = ((calls ++ [repository.CallGetAll limit offset jurisdiction])%list, st')
        /\ fst run
           = match err with
             | None =>
               (Some (api.CompaniesResponse.mk companies total limit offset), None)
             | Some e => (None, Some (ErrorfW "failed to retrieve companies: " e))
             end).
Proof.
  cbv zeta. split; [|split; [|split; [|split]]].
  - unfold spec.effective_limit. intros ->. reflexivity.
  - unfold spec.effective_offset. intros ->. reflexivity.
  - apply ListCompanies_rejects_limit.
  - apply ListCompanies_rejects_offset.
  - intros Hl Ho companies total err st' Hget.
    rewrite (ListCompanies_calls_GetAll params (calls, st) Hl Ho). cbv zeta.
    change (repository.GetAll (CompanyRepository := repository.Recording R)
              (spec.effective_limit params) (spec.effective_offset params)
              (api.GetCompaniesParams.Jurisdiction params) (calls, st))
      with (repository.recording
              (repository.CallGetAll (spec.effective_limit params)
                 (spec.effective_offset params)
                 (api.GetCompaniesParams.Jurisdiction params))
              (repository.GetAll (CompanyRepository := R)
                 (spec.effective_limit params) (spec.effective_offset params)
                 (api.GetCompaniesParams.Jurisdiction params)) (calls, st)).
    unfold repository.recording. rewrite Hget.
    destruct err; split; reflexivity.
Qed.

Example ListCompanies_limit_200 :
  service.ListCompanies
    (repo := repository.Recording repository.PostgresCompanyRepository)
    (api.GetCompaniesParams.mk (Some 200) None None) ([], db_acme)
  = ((None, Some (Errorf "limit must be between 1 and 100")), ([], db_acme)).
Proof. reflexivity. Qed.

Example ListCompanies_defaults :
  service.ListCompanies
    (repo := repository.Recording repository.PostgresCompanyRepository)
    (api.GetCompaniesParams.mk None None None) ([], db_acme)
  = ((Some (api.CompaniesResponse.mk [acme] 1 20 0), None),
     ([repository.CallGetAll 20 0 None], sql.mkDB [acme] 2 calm)).
Proof. reflexivity. Qed.

(** ** Creation: validation comes before persistence *)

(** C3: when validation rejects a request, as it does whenever the
    jurisdiction is not UK, Singapore or Caymens, [CreateCompany] returns
    that validation error, the repository records no call, and the table is
    as it was. *)
Theorem CreateCompany_invalid_leaves_storage_untouched {St : Type}
  (R : repository.CompanyRepository St) (req : api.CreateCompanyRequest.t) :
  (~ In (api.CreateCompanyRequest.Jurisdiction req) ["UK"; "Singapore"; "Caymens"] ->
   service.validateCreateRequest req <> None)
  /\ (forall err, service.validateCreateRequest req = Some err ->
      spec.validation_error err
      /\ (forall calls st,
          service.CreateCompany (repo := repository.Recording R) req (calls, st)
          = ((None, Some err), (calls, st)))
      /\ (forall calls db,
          service.CreateCompany
            (repo := repository.Recording repository.PostgresCompanyRepository)
            req (calls, db)
          = ((None, Some err), (calls, db))
          /\ sql.companies
               (snd (snd (service.CreateCompany
                  (repo := repository.Recording repository.PostgresCompanyRepository)
                  req (calls, db))))
             = sql.companies db)).
Proof.
  split.
  - intros Hj Hvalid.
    apply validateCreateRequest_passes in Hvalid.
    destruct Hvalid as (_ & _ & _ & Hallowed & _).
    unfold spec.jurisdiction_allowed in Hallowed.
    destruct (in_dec string_dec _ _) as [Hin | _]; [exact (Hj Hin) | discriminate].
  - intros err Herr. split; [exact (validateCreateRequest_error req err Herr)|].
    unfold service.CreateCompany. rewrite Herr. unfold ret.
    split; [reflexivity|]. intros calls db. split; reflexivity.
Qed.

Example CreateCompany_France :
  service.CreateCompany
    (repo := repository.Recording repository.PostgresCompanyRepository)
    france_request ([], db_acme)
  = ((None,
      Some (Errorf "invalid jurisdiction: must be one of [UK Singapore Caymens]")),
     ([], db_acme)).
Proof. reflexivity. Qed.

(** ** The store *)

(** The methods of the interface, read at the PostgreSQL repository. *)
Ltac postgres :=
  change (@repository.GetAll _ repository.PostgresCompanyRepository)
    with repository.Postgres.GetAll;
  change (@repository.GetByID _ repository.PostgresCompanyRepository)
    with repository.Postgres.GetByID;
  change (@repository.Create _ repository.PostgresCompanyRepository)
    with repository.Postgres.Create;
  change (@repository.Delete _ repository.PostgresCompanyRepository)
    with repository.Postgres.Delete.

Lemma statement_runs {A : Type}
  (body : sql.Turn -> list api.Company.t -> (A + error) * list api.Company.t)
  (db : sql.DB) :
  sql.fault (sql.turn db) = None ->
  sql.statement body db
  = (fst (body (sql.turn db) (sql.companies db)),
     sql.mkDB (snd (body (sql.turn db) (sql.companies db)))
              (S (sql.clock db)) (sql.oracle db)).
Proof.
  intros Hrun. unfold sql.statement. rewrite Hrun.
  destruct (body _ _); reflexivity.
Qed.

Lemma statement_fails {A : Type}
  (body : sql.Turn -> list api.Company.t -> (A + error) * list api.Company.t)
  (db : sql.DB) (e : error) :
  spec.fails db e ->
  sql.statement body db
  = (inr e, sql.mkDB (sql.companies db) (S (sql.clock db)) (sql.oracle db)).
Proof.
  unfold spec.fails. intros Hfail. unfold sql.statement. rewrite Hfail. reflexivity.
Qed.

Lemma runs_first (db : sql.DB) (n : nat) :
  spec.runs db (S n) -> sql.fault (sql.turn db) = None.
Proof.
  intros Hruns. unfold sql.turn. rewrite <- (Nat.add_0_r (sql.clock db)).
  apply Hruns. lia.
Qed.

Lemma runs_next (db : sql.DB) (n : nat) (rows : list api.Company.t) :
  spec.runs db (S n) ->
  spec.runs (sql.mkDB rows (S (sql.clock db)) (sql.oracle db)) n.
Proof.
  intros Hruns k Hk. cbn [sql.clock sql.oracle].
  replace (S (sql.clock db) + k)%nat with (sql.clock db + S k)%nat by lia.
  apply Hruns. lia.
Qed.

Lemma filter_length_zero {A : Type} (f : A -> bool) (l : list A) :
  List.length (filter f l) = 0%nat <-> forall x, In x l -> f x = false.
Proof.
  induction l as [| a l IH]; cbn [filter].
  - split; [intros _ x [] | reflexivity].
  - destruct (f a) eqn:Hf; cbn [List.length].
    + split; [discriminate|]. intros Hall.
      specialize (Hall a (or_introl eq_refl)). congruence.
    + rewrite IH. split.
      * intros Hall x [<- | Hin]; auto.
      * intros Hall x Hin. apply Hall. right. exact Hin.
Qed.

Lemma find_filter_out {A : Type} (f : A -> bool) (l : list A) :
  find f (filter (fun x => negb (f x)) l) = None.
Proof.
  induction l as [| a l IH]; [reflexivity|].
  cbn [filter]. destruct (f a) eqn:Hf; cbn [negb]; [exact IH|].
  cbn [find]. rewrite Hf. exact IH.
Qed.

Lemma not_stored_iff (db : sql.DB) (id : api.UUID) :
  ~ spec.stored db id <->
  forall c, In c (sql.companies db) -> sql.where_id id c = false.
Proof.
  unfold spec.stored, sql.where_id. split.
  - intros Hno c Hin. apply N.eqb_neq. intros Heq. apply Hno. eauto.
  - intros Hall [c [Hin Heq]]. specialize (Hall c Hin).
    apply N.eqb_neq in Hall. contradiction.
Qed.

(** ** Deletion *)

Section DeleteCompany.

Context {St : Type} {repo : repository.CompanyRepository St}.

(** How [DeleteCompany] classifies what the repository returns. *)
Lemma DeleteCompany_classifies (id : api.UUID) (st : St) :
  service.DeleteCompany id st
  = (match fst (repository.Delete id st) with
     | None => None
     | Some e =>
       if String.eqb (Error e) "sql: no rows in result set"
       then Some (Errorf "company not found")
       else Some (ErrorfW "failed to delete company: " e)
     end, snd (repository.Delete id st)).
Proof.
  unfold service.DeleteCompany, bind, ret.
  destruct (repository.Delete id st) as [[e|] st']; cbn [fst snd];
    [destruct (String.eqb _ _)|]; reflexivity.
Qed.

End DeleteCompany.

Lemma Postgres_Delete_runs (id : api.UUID) (db : sql.DB) :
  sql.fault (sql.turn db) = None ->
  sql.Delete id db
  = (inl (Z.of_nat (List.length (filter (sql.where_id id) (sql.companies db)))),
     sql.mkDB (filter (fun c => negb (sql.where_id id c)) (sql.companies db))
              (S (sql.clock db)) (sql.oracle db)).
Proof. intros Hrun. unfold sql.Delete. rewrite statement_runs by exact Hrun. reflexivity. Qed.

Lemma sql_Delete_reports (id : api.UUID) (db db' : sql.DB) (rowsAffected : Z) :
  sql.Delete id db = (inl rowsAffected, db') ->
  sql.fault (sql.turn db) = None.
Proof.
  unfold sql.Delete, sql.statement.
  destruct (sql.fault (sql.turn db)); [discriminate | reflexivity].
Qed.

Lemma Postgres_Delete_result (id : api.UUID) (db : sql.DB) :
  sql.fault (sql.turn db) = None ->
  repository.Postgres.Delete id db
  = ((if Z.of_nat (List.length (filter (sql.where_id id) (sql.companies db))) =? 0
      then Some ErrNoRows else None),
     sql.mkDB (filter (fun c => negb (sql.where_id id c)) (sql.companies db))
              (S (sql.clock db)) (sql.oracle db)).
Proof.
  intros Hrun. unfold repository.Postgres.Delete, bind.
  rewrite Postgres_Delete_runs by exact Hrun.
  destruct (_ =? 0); reflexivity.
Qed.

Lemma Postgres_GetByID_absent (id : api.UUID) (db : sql.DB) :
  sql.fault (sql.turn db) = None ->
  find (sql.where_id id) (sql.companies db) = None ->
  repository.Postgres.GetByID id db
  = ((None, None), sql.mkDB (sql.companies db) (S (sql.clock db)) (sql.oracle db)).
Proof.
  intros Hrun Hfind. unfold repository.Postgres.GetByID, sql.SelectByID, bind.
  rewrite statement_runs by exact Hrun. rewrite Hfind. reflexivity.
Qed.

Lemma GetCompanyByID_absent (id : api.UUID) (db : sql.DB) :
  sql.fault (sql.turn db) = None ->
  find (sql.where_id id) (sql.companies db) = None ->
  service.GetCompanyByID (repo := repository.PostgresCompanyRepository) id db
  = ((None, Some (Errorf "company not found")),
     sql.mkDB (sql.companies db) (S (sql.clock db)) (sql.oracle db)).
Proof.
  intros Hrun Hfind. unfold service.GetCompanyByID, bind.
  postgres.
  rewrite Postgres_GetByID_absent by assumption. reflexivity.
Qed.

(** C4: when the store reports the number of rows a deletion affected,
    [DeleteCompany] fails with "company not found" exactly when that number
    is zero, which is exactly when no stored record has the identifier; it
    never fails otherwise; and after deleting a stored identifier, fetching
    it yields "company not found". *)
Theorem DeleteCompany_not_found_iff_no_row_affected
  (db db' : sql.DB) (id : api.UUID) (rowsAffected : Z) :
  sql.Delete id db = (inl rowsAffected, db') ->
  let run := service.DeleteCompany (repo := repository.PostgresCompanyRepository) id db in
  snd run = db'
  /\ (fst run = Some (Errorf "company not found") <-> rowsAffected = 0)
  /\ (rowsAffected = 0 <-> ~ spec.stored db id)
  /\ (rowsAffected <> 0 -> fst run = None)
  /\ (spec.stored db id -> sql.fault (sql.turn db') = None ->
      fst run = None
      /\ fst (service.GetCompanyByID
                (repo := repository.PostgresCompanyRepository) id db')
         = (None, Some (Errorf "company not found"))).
Proof.
  intros Hdel. cbv zeta.
  pose proof (sql_Delete_reports _ _ _ _ Hdel) as Hrun.
  rewrite (Postgres_Delete_runs id db Hrun) in Hdel.
  injection Hdel as Hrows Hdb'.
  rewrite DeleteCompany_classifies.
  postgres.
  rewrite (Postgres_Delete_result id db Hrun). cbn [fst snd].
  rewrite Hrows.
  assert (Hzero : rowsAffected = 0 <-> ~ spec.stored db id).
  { rewrite not_stored_iff, <- filter_length_zero. lia. }
  split; [exact Hdb'|]. split; [|split; [exact Hzero|split]].
  - destruct (Z.eqb_spec rowsAffected 0) as [Hz | Hnz]; cbn.
    + split; [intros _; exact Hz | reflexivity].
    + split; [discriminate | contradiction].
  - intros Hnz. destruct (Z.eqb_spec rowsAffected 0); [contradiction | reflexivity].
  - intros Hstored Hrun'.
    destruct (Z.eqb_spec rowsAffected 0) as [Hz | Hnz].
    + apply Hzero in Hz. contradiction.
    + split; [reflexivity|].
      rewrite GetCompanyByID_absent; [reflexivity | exact Hrun' |].
      rewrite <- Hdb'. cbn [sql.companies]. apply find_filter_out.
Qed.

Lemma DeleteCompany_not_found_iff_no_row_affected_witness :
  sql.Delete 1%N db_acme = (inl 1, sql.mkDB [] 1 calm)
  /\ fst (service.DeleteCompany (repo := repository.PostgresCompanyRepository)
            1%N db_acme) = None
  /\ fst (service.GetCompanyByID (repo := repository.PostgresCompanyRepository)
            1%N (sql.mkDB [] 1 calm))
     = (None, Some (Errorf "company not found")).
Proof.
  split; [reflexivity|].
  apply (DeleteCompany_not_found_iff_no_row_affected db_acme (sql.mkDB [] 1 calm)
           1%N 1 eq_refl).
  - exists acme. split; [left; reflexivity | reflexivity].
  - reflexivity.
Defined.

(** ** Fetching by identifier *)

Lemma find_where_id_absent (db : sql.DB) (id : api.UUID) :
  ~ spec.stored db id -> find (sql.where_id id) (sql.companies db) = None.
Proof.
  rewrite not_stored_iff. induction (sql.companies db) as [| c l IH]; [reflexivity|].
  intros Hall. cbn [find]. rewrite (Hall c (or_introl eq_refl)).
  apply IH. intros x Hin. apply Hall. right. exact Hin.
Qed.

Lemma Postgres_GetByID_fails (id : api.UUID) (db : sql.DB) (e : error) :
  spec.fails db e ->
  repository.Postgres.GetByID id db
  = ((None, if is_ErrNoRows e then None else Some e),
     sql.mkDB (sql.companies db) (S (sql.clock db)) (sql.oracle db)).
Proof.
  intros Hfail. unfold repository.Postgres.GetByID, sql.SelectByID, bind.
  rewrite (statement_fails _ db e Hfail). destruct (is_ErrNoRows e); reflexivity.
Qed.

Lemma GetCompanyByID_fails (id : api.UUID) (db : sql.DB) (e : error) :
  spec.fails db e -> is_ErrNoRows e = false ->
  service.GetCompanyByID (repo := repository.PostgresCompanyRepository) id db
  = ((None, Some (ErrorfW "failed to retrieve company: " e)),
     sql.mkDB (sql.companies db) (S (sql.clock db)) (sql.oracle db)).
Proof.
  intros Hfail Hsentinel. unfold service.GetCompanyByID, bind.
  postgres.
  rewrite (Postgres_GetByID_fails id db e Hfail), Hsentinel. reflexivity.
Qed.

(** C5: for an identifier no stored record has, the repository's [GetByID]
    returns neither a record nor an error, and [GetCompanyByID] turns that
    into the error "company not found"; a failure of the store is returned
    by the repository as an error and by the service as "failed to retrieve
    company: ...", a different error with a different message. *)
Theorem GetCompanyByID_absent_is_not_found (db : sql.DB) (id : api.UUID) :
  sql.fault (sql.turn db) = None ->
  ~ spec.stored db id ->
  fst (repository.GetByID (CompanyRepository := repository.PostgresCompanyRepository)
         id db) = (None, None)
  /\ fst (service.GetCompanyByID (repo := repository.PostgresCompanyRepository) id db)
     = (None, Some (Errorf "company not found"))
  /\ (forall failing e, spec.fails failing e -> is_ErrNoRows e = false ->
      fst (repository.GetByID (CompanyRepository := repository.PostgresCompanyRepository)
             id failing) = (None, Some e)
      /\ fst (service.GetCompanyByID (repo := repository.PostgresCompanyRepository)
                id failing)
         = (None, Some (ErrorfW "failed to retrieve company: " e))
      /\ Error (ErrorfW "failed to retrieve company: " e) <> "company not found").
Proof.
  intros Hrun Habsent. apply find_where_id_absent in Habsent.
  split; [|split].
  - postgres.
    rewrite Postgres_GetByID_absent by assumption. reflexivity.
  - rewrite GetCompanyByID_absent by assumption. reflexivity.
  - intros failing e Hfail Hsentinel. split; [|split].
    + postgres.
      rewrite (Postgres_GetByID_fails id failing e Hfail), Hsentinel. reflexivity.
    + rewrite (GetCompanyByID_fails id failing e Hfail Hsentinel). reflexivity.
    + cbn [Error]. discriminate.
Qed.

Lemma GetCompanyByID_absent_is_not_found_witness :
  sql.fault (sql.turn db_acme) = None
  /\ ~ spec.stored db_acme 2%N
  /\ fst (service.GetCompanyByID (repo := repository.PostgresCompanyRepository)
            2%N db_acme)
     = (None, Some (Errorf "company not found")).
Proof.
  assert (Habsent : ~ spec.stored db_acme 2%N).
  { intros [c [[<- | []] Hid]]. discriminate Hid. }
  split; [reflexivity|]. split; [exact Habsent|].
  apply (GetCompanyByID_absent_is_not_found db_acme 2%N eq_refl Habsent).
Defined.

(** ** Deletion: how a storage error is classified *)

Lemma append_length (s1 s2 : string) :
  String.length (s1 ++ s2) = (String.length s1 + String.length s2)%nat.
Proof. induction s1 as [| c s1 IH]; cbn; [reflexivity | now rewrite IH]. Qed.

Lemma append_nonempty_neq (prefix s : string) :
  prefix <> "" -> (prefix ++ s)%string <> s.
Proof.
  intros Hne Heq. apply (f_equal String.length) in Heq.
  rewrite append_length in Heq. destruct prefix; [congruence | cbn in Heq; lia].
Qed.

(** C10, as stated, fails: [sql.ErrNoRows] wrapped by [fmt.Errorf] with the
    bare verb is a wrapped variant, not the sentinel, and keeps its message;
    [DeleteCompany] answers "company not found" to it, not the generic
    failure. *)
Lemma DeleteCompany_bare_wrap_is_not_found :
  is_ErrNoRows (ErrorfW "" ErrNoRows) = false
  /\ fst (repository.Delete
            (CompanyRepository := repository.PostgresCompanyRepository)
            1%N db_bare_wrap)
     = Some (ErrorfW "" ErrNoRows)
  /\ fst (service.DeleteCompany (repo := repository.PostgresCompanyRepository)
            1%N db_bare_wrap)
     = Some (Errorf "company not found")
  /\ fst (service.DeleteCompany (repo := repository.PostgresCompanyRepository)
            1%N db_bare_wrap)
     <> Some (ErrorfW "failed to delete company: " (ErrorfW "" ErrNoRows)).
Proof. repeat split; [reflexivity .. | discriminate]. Qed.

(** C10, as amended: [DeleteCompany] answers "company not found" to an
    error of the repository if and only if the message of that error is
    exactly "sql: no rows in result set", the message of the [sql.ErrNoRows]
    that the repository returns, unwrapped, when no row was affected; an
    error with any other message comes back as "failed to delete company:
    ..." around it, and so does [sql.ErrNoRows] wrapped behind any text; an
    error that wraps it without adding text keeps the message and is
    answered with "company not found". *)
Theorem DeleteCompany_not_found_by_message {St : Type}
  (R : repository.CompanyRepository St) (id : api.UUID) (st st' : St) (e : error) :
  repository.Delete (CompanyRepository := R) id st = (Some e, st') ->
  let result := fst (service.DeleteCompany (repo := R) id st) in
  (result = Some (Errorf "company not found")
   <-> Error e = "sql: no rows in result set")
  /\ (Error e <> "sql: no rows in result set" ->
      result = Some (ErrorfW "failed to delete company: " e))
  /\ (forall prefix inner, prefix <> "" -> e = ErrorfW prefix inner ->
      Error inner = "sql: no rows in result set" ->
      result = Some (ErrorfW "failed to delete company: " e))
  /\ (forall inner, e = ErrorfW "" inner ->
      Error inner = "sql: no rows in result set" ->
      result = Some (Errorf "company not found"))
  /\ Error ErrNoRows = "sql: no rows in result set"
  /\ (forall db, sql.fault (sql.turn db) = None -> ~ spec.stored db id ->
      fst (repository.Delete
             (CompanyRepository := repository.PostgresCompanyRepository) id db)
      = Some ErrNoRows).
Proof.
  intros Hdel. cbv zeta. rewrite DeleteCompany_classifies, Hdel. cbn [fst].
  assert (Hother : Error e <> "sql: no rows in result set" ->
                   (if String.eqb (Error e) "sql: no rows in result set"
                    then Some (Errorf "company not found")
                    else Some (ErrorfW "failed to delete company: " e))
                   = Some (ErrorfW "failed to delete company: " e)).
  { intros Hne. apply String.eqb_neq in Hne. rewrite Hne. reflexivity. }
  split; [|split; [exact Hother|split; [|split; [|split; [reflexivity|]]]]].
  - destruct (String.eqb_spec (Error e) "sql: no rows in result set") as [Heq | Hne].
    + split; [intros _; exact Heq | reflexivity].
    + split; [discriminate | contradiction].
  - intros prefix inner Hprefix -> Hinner. apply Hother.
    cbn [Error]. rewrite Hinner. apply append_nonempty_neq. exact Hprefix.
  - intros inner -> Hinner. cbn [Error append]. rewrite Hinner. reflexivity.
  - intros db Hrun Habsent.
    postgres.
    rewrite (Postgres_Delete_result id db Hrun). cbn [fst].
    pose proof (proj1 (not_stored_iff db id) Habsent) as Hnone.
    rewrite (proj2 (filter_length_zero _ _) Hnone). reflexivity.
Qed.

Lemma DeleteCompany_not_found_by_message_witness :
  repository.Delete (CompanyRepository := repository.PostgresCompanyRepository)
    2%N db_acme = (Some ErrNoRows, sql.mkDB [acme] 1 calm)
  /\ fst (service.DeleteCompany (repo := repository.PostgresCompanyRepository)
            2%N db_acme) = Some (Errorf "company not found").
Proof.
  split; [reflexivity|].
  apply (DeleteCompany_not_found_by_message repository.PostgresCompanyRepository
           2%N db_acme (sql.mkDB [acme] 1 calm) ErrNoRows eq_refl).
  reflexivity.
Defined.

(** ** Creation: what is stored *)

Lemma Postgres_Create_runs (req : api.CreateCompanyRequest.t) (db : sql.DB) :
  sql.fault (sql.turn db) = None ->
  let company :=
    api.Company.mk (sql.uuid (sql.turn db))
      (sql.varchar 20 (api.CreateCompanyRequest.Jurisdiction req))
      (sql.varchar 255 (api.CreateCompanyRequest.CompanyName req))
      (api.CreateCompanyRequest.CompanyAddress req)
      (api.CreateCompanyRequest.NatureOfBusiness req)
      (api.CreateCompanyRequest.NumberOfDirectors req)
      (api.CreateCompanyRequest.NumberOfShareholders req)
      (option_map (sql.varchar 50) (api.CreateCompanyRequest.SecCode req))
      (sql.now (sql.turn db)) (sql.now (sql.turn db)) in
  repository.Postgres.Create req db
  = ((Some company, None),
     sql.mkDB (sql.companies db ++ [company]) (S (sql.clock db)) (sql.oracle db)).
Proof.
  intros Hrun. cbv zeta. unfold repository.Postgres.Create, sql.Insert, bind.
  rewrite statement_runs by exact Hrun. reflexivity.
Qed.

Lemma Postgres_Create_fails (req : api.CreateCompanyRequest.t) (db : sql.DB) (e : error) :
  spec.fails db e ->
  repository.Postgres.Create req db
  = ((None, Some e), sql.mkDB (sql.companies db) (S (sql.clock db)) (sql.oracle db)).
Proof.
  intros Hfail. unfold repository.Postgres.Create, sql.Insert, bind.
  rewrite (statement_fails _ db e Hfail). reflexivity.
Qed.

(** C9, as amended: a request that passes validation is handed to the
    repository's [Create] as it is, and the row the store keeps and returns
    has the request's jurisdiction, name, address, nature of business and two
    counts when the insertion runs; the name and the address are not
    trimmed.  Its sec_code is the request's when that is absent or has at
    most 50 characters, the width of its column. *)
Theorem CreateCompany_stores_request_verbatim (req : api.CreateCompanyRequest.t) :
  service.validateCreateRequest req = None ->
  (forall (St : Type) (R : repository.CompanyRepository St)
          (calls : list repository.Call) (st : St),
   fst (snd (service.CreateCompany (repo := repository.Recording R) req (calls, st)))
   = (calls ++ [repository.CallCreate req])%list)
  /\ (forall (calls : list repository.Call) (db : sql.DB),
      sql.fault (sql.turn db) = None ->
      exists company db',
        service.CreateCompany
          (repo := repository.Recording repository.PostgresCompanyRepository)
          req (calls, db)
        = ((Some company, None), ((calls ++ [repository.CallCreate req])%list, db'))
        /\ sql.companies db' = (sql.companies db ++ [company])%list
        /\ api.Company.CompanyName company = api.CreateCompanyRequest.CompanyName req
        /\ api.Company.CompanyAddress company
           = api.CreateCompanyRequest.CompanyAddress req
        /\ api.Company.Jurisdiction company = api.CreateCompanyRequest.Jurisdiction req
        /\ api.Company.NatureOfBusiness company
           = api.CreateCompanyRequest.NatureOfBusiness req
        /\ api.Company.NumberOfDirectors company
           = api.CreateCompanyRequest.NumberOfDirectors req
        /\ api.Company.NumberOfShareholders company
           = api.CreateCompanyRequest.NumberOfShareholders req
        /\ (spec.fits 50 (api.CreateCompanyRequest.SecCode req) ->
            api.Company.SecCode company = api.CreateCompanyRequest.SecCode req)).
Proof.
  intros Hvalid. split.
  - intros St R calls st. unfold service.CreateCompany. rewrite Hvalid. unfold bind.
    change (repository.Create (CompanyRepository := repository.Recording R)
              req (calls, st))
      with (repository.recording (repository.CallCreate req)
              (repository.Create (CompanyRepository := R) req) (calls, st)).
    unfold repository.recording.
    destruct (repository.Create req st) as [[company [e|]] st']; reflexivity.
  - intros calls db Hrun. eexists. eexists. split.
    + unfold service.CreateCompany. rewrite Hvalid. unfold bind.
      change (repository.Create (CompanyRepository :=
                repository.Recording repository.PostgresCompanyRepository)
                req (calls, db))
        with (repository.recording (repository.CallCreate req)
                (repository.Postgres.Create req) (calls, db)).
      unfold repository.recording.
      rewrite (Postgres_Create_runs req db Hrun). reflexivity.
    + destruct (validated_columns req Hvalid) as [Hjurisdiction Hname].
      cbn [sql.companies api.Company.CompanyName api.Company.CompanyAddress
           api.Company.Jurisdiction api.Company.NatureOfBusiness
           api.Company.NumberOfDirectors api.Company.NumberOfShareholders
           api.Company.SecCode].
      repeat (split; [first [reflexivity | assumption]|]).
      intros Hfits. now apply sec_code_fits.
Qed.

Lemma CreateCompany_stores_request_verbatim_witness :
  service.validateCreateRequest spaced_request = None
  /\ exists company db',
       service.CreateCompany
         (repo := repository.Recording repository.PostgresCompanyRepository)
         spaced_request ([], db_acme)
       = ((Some company, None), ([repository.CallCreate spaced_request], db'))
       /\ sql.companies db' = [acme; company]
       /\ api.Company.CompanyName company = "  Acme Ltd  "
       /\ api.Company.CompanyAddress company = " 1 Main St ".
Proof.
  split; [reflexivity|].
  destruct (proj2 (CreateCompany_stores_request_verbatim spaced_request eq_refl)
              [] db_acme eq_refl)
    as (company & db' & Hrun & Hrows & Hname & Haddress & _).
  exists company, db'. repeat split; assumption.
Defined.

(** C9, as stated, fails: a sec_code of fifty letters and a space passes
    validation and is stored without the space: the column holds fifty
    characters and the store cuts trailing spaces beyond them without an
    error. *)
Lemma CreateCompany_cuts_long_sec_code :
  service.validateCreateRequest long_code_request = None
  /\ exists company db',
       service.CreateCompany
         (repo := repository.Recording repository.PostgresCompanyRepository)
         long_code_request ([], db_acme)
       = ((Some company, None), ([repository.CallCreate long_code_request], db'))
       /\ sql.companies db' = [acme; company]
       /\ api.Company.SecCode company = Some fifty_letters
       /\ api.Company.SecCode company
          <> api.CreateCompanyRequest.SecCode long_code_request.
Proof.
  split; [reflexivity|]. eexists. eexists.
  split; [vm_compute; reflexivity|].
  split; [reflexivity|]. split; [reflexivity|]. vm_compute. discriminate.
Qed.

(** ** Listing: the page and the count *)

Lemma append_each {A : Type} (rows acc : list A) :
  fold_left (fun cs c => (cs ++ [c])%list) rows acc = (acc ++ rows)%list.
Proof.
  revert acc. induction rows as [| c rows IH]; intros acc; cbn [fold_left].
  - now rewrite app_nil_r.
  - rewrite IH, <- app_assoc. reflexivity.
Qed.

Lemma Postgres_GetAll_runs (limit offset : Z) (jurisdiction : option string)
  (db : sql.DB) :
  0 <= limit -> 0 <= offset -> spec.runs db 2 ->
  repository.Postgres.GetAll limit offset jurisdiction db
  = ((firstn (Z.to_nat limit)
        (skipn (Z.to_nat offset)
           (sql.order_by_date_created_desc
              (sql.tiebreak (sql.oracle db (S (sql.clock db))))
              (spec.matching jurisdiction db))),
      Z.of_nat (List.length (spec.matching jurisdiction db)), None),
     sql.mkDB (sql.companies db) (S (S (sql.clock db))) (sql.oracle db)).
Proof.
  intros Hlimit Hoffset Hruns.
  unfold repository.Postgres.GetAll, sql.SelectCount, sql.SelectPage, bind.
  rewrite statement_runs by exact (runs_first db 1 Hruns). cbn [fst snd].
  pose proof (runs_next db 1 (sql.companies db) Hruns) as Hruns'.
  rewrite statement_runs by exact (runs_first _ 0 Hruns'). cbn [fst snd].
  destruct (Z.ltb_spec limit 0); [lia|]. destruct (Z.ltb_spec offset 0); [lia|].
  cbn [fst snd sql.companies sql.clock sql.oracle]. unfold ret.
  rewrite append_each. reflexivity.
Qed.

Lemma Postgres_GetAll_count_fails (limit offset : Z) (jurisdiction : option string)
  (db : sql.DB) (e : error) :
  spec.fails db e ->
  repository.Postgres.GetAll limit offset jurisdiction db
  = (([], 0, Some e), sql.mkDB (sql.companies db) (S (sql.clock db)) (sql.oracle db)).
Proof.
  intros Hfail. unfold repository.Postgres.GetAll, sql.SelectCount, bind.
  rewrite (statement_fails _ db e Hfail). reflexivity.
Qed.

Lemma filter_partition {A : Type} (f : A -> bool) (l : list A) :
  Permutation (filter f l ++ filter (fun x => negb (f x)) l)%list l.
Proof.
  induction l as [| a l IH]; [constructor|].
  cbn [filter]. destruct (f a); cbn [negb app].
  - constructor. exact IH.
  - apply Permutation_sym, Permutation_cons_app, Permutation_sym, IH.
Qed.

(** What [WHERE jurisdiction = $1] keeps and what it leaves. *)
Lemma where_jurisdiction_selects (jurisdiction : option string)
  (rows : list api.Company.t) :
  Forall (spec.of_jurisdiction jurisdiction)
    (filter (sql.where_jurisdiction jurisdiction) rows)
  /\ Forall (fun c => ~ spec.of_jurisdiction jurisdiction c)
       (filter (fun c => negb (sql.where_jurisdiction jurisdiction c)) rows).
Proof.
  split; apply Forall_forall; intros c Hin; apply filter_In in Hin;
    destruct Hin as [_ Hkept]; destruct jurisdiction as [j|];
    cbn [sql.where_jurisdiction spec.of_jurisdiction negb] in *.
  - apply String.eqb_eq. exact Hkept.
  - exact I.
  - apply negb_true_iff, String.eqb_neq in Hkept. exact Hkept.
  - discriminate Hkept.
Qed.

(** C7: the stored records split into those the jurisdiction filter is
    about (all of them when there is no filter, those whose jurisdiction is
    the filter's otherwise) and the others; whenever the two statements of
    a list request run, the total it returns is the number of the former,
    whatever the limit and the offset; with no record stored the page is
    empty and the total is 0. *)
Theorem ListCompanies_total_counts_all_matching (db : sql.DB)
  (jurisdiction : option string) :
  spec.runs db 2 ->
  exists selected others,
    Permutation (selected ++ others)%list (sql.companies db)
    /\ Forall (spec.of_jurisdiction jurisdiction) selected
    /\ Forall (fun c => ~ spec.of_jurisdiction jurisdiction c) others
    /\ (forall limit offset, 0 <= limit -> 0 <= offset ->
        exists page db',
          repository.GetAll
            (CompanyRepository := repository.PostgresCompanyRepository)
            limit offset jurisdiction db
          = ((page, Z.of_nat (List.length selected), None), db')
          /\ (sql.companies db = [] ->
              page = [] /\ Z.of_nat (List.length selected) = 0))
    /\ (forall limit offset,
        let params := api.GetCompaniesParams.mk limit offset jurisdiction in
        spec.limit_in_range params -> spec.offset_in_range params ->
        exists page db',
          service.ListCompanies (repo := repository.PostgresCompanyRepository)
            params db
          = ((Some (api.CompaniesResponse.mk page (Z.of_nat (List.length selected))
                      (spec.effective_limit params) (spec.effective_offset params)),
              None), db')
          /\ (sql.companies db = [] ->
              page = [] /\ Z.of_nat (List.length selected) = 0)).
Proof.
  intros Hruns.
  exists (filter (sql.where_jurisdiction jurisdiction) (sql.companies db)),
         (filter (fun c => negb (sql.where_jurisdiction jurisdiction c))
            (sql.companies db)).
  split; [apply filter_partition|].
  split; [apply where_jurisdiction_selects|].
  split; [apply where_jurisdiction_selects|].
  assert (Hrepo : forall limit offset, 0 <= limit -> 0 <= offset ->
            exists page db',
              repository.GetAll
                (CompanyRepository := repository.PostgresCompanyRepository)
                limit offset jurisdiction db
              = ((page,
                  Z.of_nat (List.length
                    (filter (sql.where_jurisdiction jurisdiction) (sql.companies db))),
                  None), db')
              /\ (sql.companies db = [] ->
                  page = []
                  /\ Z.of_nat (List.length
                       (filter (sql.where_jurisdiction jurisdiction)
                          (sql.companies db))) = 0)).
  { intros limit offset Hlimit Hoffset.
    postgres.
    rewrite (Postgres_GetAll_runs limit offset jurisdiction db Hlimit Hoffset Hruns).
    eexists. eexists. split; [reflexivity|].
    intros Hempty. unfold spec.matching. rewrite Hempty. cbn [filter].
    cbn [sql.order_by_date_created_desc fold_right].
    rewrite skipn_nil, firstn_nil. split; reflexivity. }
  split; [exact Hrepo|].
  intros limit offset params Hlimit Hoffset.
  rewrite (ListCompanies_calls_GetAll params db Hlimit Hoffset). cbv zeta.
  destruct (Hrepo (spec.effective_limit params) (spec.effective_offset params))
    as (page & db' & Hget & Hempty).
  { unfold spec.limit_in_range in Hlimit. lia. }
  { exact Hoffset. }
  change (api.GetCompaniesParams.Jurisdiction params) with jurisdiction.
  rewrite Hget. exists page, db'. split; [reflexivity | exact Hempty].
Qed.

Lemma ListCompanies_total_counts_all_matching_witness :
  spec.runs pair 2
  /\ exists selected others,
       Permutation (selected ++ others)%list [acme; globex]
       /\ Forall (fun c => api.Company.Jurisdiction c = "Singapore") selected
       /\ Forall (fun c => api.Company.Jurisdiction c <> "Singapore") others
       /\ Z.of_nat (List.length selected) = 1
       /\ exists page db',
            service.ListCompanies (repo := repository.PostgresCompanyRepository)
              (api.GetCompaniesParams.mk (Some 1) (Some 5) (Some "Singapore")) pair
            = ((Some (api.CompaniesResponse.mk page
                        (Z.of_nat (List.length selected)) 1 5), None), db').
Proof.
  assert (Hruns : spec.runs pair 2) by (intros k _; reflexivity).
  split; [exact Hruns|].
  destruct (ListCompanies_total_counts_all_matching pair (Some "Singapore") Hruns)
    as (selected & others & Hsplit & Hselected & Hothers & _ & Hlist).
  destruct (Hlist (Some 1) (Some 5)) as (page & db' & Hrun & _).
  - unfold spec.limit_in_range. cbn. lia.
  - unfold spec.offset_in_range. cbn. lia.
  - exists selected, others.
    split; [exact Hsplit|]. split; [exact Hselected|]. split; [exact Hothers|].
    split; [|exists page, db'; exact Hrun].
    assert (Hcomputed :
              service.ListCompanies (repo := repository.PostgresCompanyRepository)
                (api.GetCompaniesParams.mk (Some 1) (Some 5) (Some "Singapore")) pair
              = ((Some (api.CompaniesResponse.mk [] 1 1 5), None),
                 sql.mkDB [acme; globex] 2 (sql.oracle pair)))
      by reflexivity.
    rewrite Hcomputed in Hrun. injection Hrun as _ Htotal _. symmetry. exact Htotal.
Defined.

(** ** Listing: the order of the rows *)

Section Ordering.

Variable tb : api.Company.t -> api.Company.t -> bool.

Lemma place_perm (c : api.Company.t) (l : list api.Company.t) :
  Permutation (sql.place tb c l) (c :: l).
Proof.
  induction l as [| d l IH]; cbn [sql.place]; [apply Permutation_refl|].
  destruct (sql.before tb c d); [apply Permutation_refl|].
  apply perm_trans with (d :: c :: l); [apply perm_skip, IH | apply perm_swap].
Qed.

Lemma order_perm (l : list api.Company.t) :
  Permutation (sql.order_by_date_created_desc tb l) l.
Proof.
  induction l as [| c l IH]; cbn [sql.order_by_date_created_desc fold_right];
    [apply perm_nil|].
  apply perm_trans with (c :: sql.order_by_date_created_desc tb l);
    [apply place_perm | apply perm_skip, IH].
Qed.

Lemma before_true (c d : api.Company.t) :
  sql.before tb c d = true -> spec.newer_or_same c d.
Proof.
  unfold sql.before, spec.newer_or_same. intros H.
  apply orb_true_iff in H. destruct H as [H | H].
  - apply Z.ltb_lt in H. lia.
  - apply andb_true_iff in H. destruct H as [H _]. apply Z.eqb_eq in H. lia.
Qed.

Lemma before_false (c d : api.Company.t) :
  sql.before tb c d = false -> spec.newer_or_same d c.
Proof.
  unfold sql.before, spec.newer_or_same. intros H.
  apply orb_false_iff in H. destruct H as [H _]. apply Z.ltb_ge in H. exact H.
Qed.

Lemma place_sorted (c : api.Company.t) (l : list api.Company.t) :
  StronglySorted spec.newer_or_same l ->
  StronglySorted spec.newer_or_same (sql.place tb c l).
Proof.
  induction l as [| d l IH]; intros Hsorted; cbn [sql.place].
  - constructor; constructor.
  - inversion Hsorted as [| ? ? Htail Hhead]; subst.
    destruct (sql.before tb c d) eqn:Hbefore.
    + constructor; [exact Hsorted|]. constructor; [exact (before_true c d Hbefore)|].
      apply before_true in Hbefore. revert Hhead. apply Forall_impl.
      unfold spec.newer_or_same in *. intros x Hx. lia.
    + constructor; [exact (IH Htail)|].
      apply (Permutation_Forall (Permutation_sym (place_perm c l))).
      constructor; [exact (before_false c d Hbefore) | exact Hhead].
Qed.

Lemma order_sorted (l : list api.Company.t) :
  StronglySorted spec.newer_or_same (sql.order_by_date_created_desc tb l).
Proof.
  induction l as [| c l IH]; cbn [sql.order_by_date_created_desc fold_right];
    [constructor | apply place_sorted, IH].
Qed.

End Ordering.

Lemma sorted_distinct_strict (l : list api.Company.t) :
  NoDup (map api.Company.DateCreated l) ->
  StronglySorted spec.newer_or_same l -> StronglySorted spec.newer l.
Proof.
  induction l as [| c l IH]; intros Hnodup Hsorted; [constructor|].
  inversion Hsorted as [| ? ? Htail Hhead]; subst.
  cbn [map] in Hnodup. inversion Hnodup as [| ? ? Hnotin Hrest]; subst.
  constructor; [exact (IH Hrest Htail)|].
  apply Forall_forall. intros d Hin.
  pose proof (proj1 (Forall_forall _ _) Hhead d Hin) as Hle.
  unfold spec.newer, spec.newer_or_same in *.
  assert (api.Company.DateCreated d <> api.Company.DateCreated c).
  { intros Heq. apply Hnotin. rewrite <- Heq. apply in_map. exact Hin. }
  lia.
Qed.

Lemma strictly_sorted_unique (l1 l2 : list api.Company.t) :
  StronglySorted spec.newer l1 -> StronglySorted spec.newer l2 ->
  Permutation l1 l2 -> l1 = l2.
Proof.
  revert l2. induction l1 as [| a l1 IH]; intros l2 H1 H2 Hperm.
  - apply Permutation_nil in Hperm. now subst.
  - destruct l2 as [| b l2].
    { apply Permutation_sym, Permutation_nil in Hperm. discriminate. }
    inversion H1 as [| ? ? Htail1 Hhead1]; subst.
    inversion H2 as [| ? ? Htail2 Hhead2]; subst.
    assert (Hab : a = b).
    { assert (Ha : In a (b :: l2))
        by (apply (Permutation_in _ Hperm); left; reflexivity).
      assert (Hb : In b (a :: l1))
        by (apply (Permutation_in _ (Permutation_sym Hperm)); left; reflexivity).
      destruct Ha as [Ha | Ha]; [now symmetry|].
      destruct Hb as [Hb | Hb]; [exact Hb|].
      pose proof (proj1 (Forall_forall _ _) Hhead1 b Hb) as Hlt1.
      pose proof (proj1 (Forall_forall _ _) Hhead2 a Ha) as Hlt2.
      unfold spec.newer in *. lia. }
    subst b. f_equal. apply IH; try assumption.
    apply Permutation_cons_inv with a. exact Hperm.
Qed.

(** With distinct creation times the order does not depend on how the
    executor would break ties. *)
Lemma order_deterministic (tb tb' : api.Company.t -> api.Company.t -> bool)
  (l : list api.Company.t) :
  NoDup (map api.Company.DateCreated l) ->
  sql.order_by_date_created_desc tb l = sql.order_by_date_created_desc tb' l.
Proof.
  intros Hnodup.
  assert (Hstrict : forall t, StronglySorted spec.newer
                                 (sql.order_by_date_created_desc t l)).
  { intros t. apply sorted_distinct_strict; [|apply order_sorted].
    apply (Permutation_NoDup (l := map api.Company.DateCreated l)); [|exact Hnodup].
    apply Permutation_map, Permutation_sym, order_perm. }
  apply strictly_sorted_unique; try apply Hstrict.
  apply perm_trans with l; [apply order_perm | apply Permutation_sym, order_perm].
Qed.

Lemma firstn_firstn_skipn {A : Type} (n m : nat) (l : list A) :
  (firstn n l ++ firstn m (skipn n l))%list = firstn (n + m) l.
Proof.
  revert l. induction n as [| n IH]; intros l; [reflexivity|].
  destruct l as [| a l]; cbn [firstn skipn Nat.add app].
  - now rewrite firstn_nil.
  - now rewrite IH.
Qed.

Lemma In_firstn {A : Type} (n : nat) (l : list A) (x : A) :
  In x (firstn n l) -> In x l.
Proof.
  revert l. induction n as [| n IH]; intros l; [intros []|].
  destruct l as [| a l]; cbn [firstn]; [intros []|].
  intros [-> | Hin]; [left; reflexivity | right; exact (IH l Hin)].
Qed.

Lemma StronglySorted_firstn {A : Type} (R : A -> A -> Prop) (n : nat) (l : list A) :
  StronglySorted R l -> StronglySorted R (firstn n l).
Proof.
  revert n. induction l as [| a l IH]; intros n Hsorted.
  - rewrite firstn_nil. constructor.
  - destruct n as [| n]; [constructor|]. cbn [firstn].
    inversion Hsorted as [| ? ? Htail Hhead]; subst.
    constructor; [exact (IH n Htail)|].
    apply Forall_forall. intros x Hin.
    apply (proj1 (Forall_forall _ _) Hhead). exact (In_firstn _ _ _ Hin).
Qed.

Lemma NoDup_firstn {A : Type} (n : nat) (l : list A) :
  NoDup l -> NoDup (firstn n l).
Proof.
  revert n. induction l as [| a l IH]; intros n Hnodup.
  - rewrite firstn_nil. constructor.
  - destruct n as [| n]; [constructor|]. cbn [firstn].
    inversion Hnodup as [| ? ? Hnotin Hrest]; subst.
    constructor; [|exact (IH n Hrest)].
    intros Hin. apply Hnotin. exact (In_firstn _ _ _ Hin).
Qed.

Lemma runs_fewer (db : sql.DB) (n m : nat) :
  (m <= n)%nat -> spec.runs db n -> spec.runs db m.
Proof. intros Hle Hruns k Hk. apply Hruns. lia. Qed.

Lemma runs_later (db : sql.DB) (n m : nat) (rows : list api.Company.t) :
  spec.runs db (n + m) ->
  spec.runs (sql.mkDB rows (n + sql.clock db) (sql.oracle db)) m.
Proof.
  intros Hruns k Hk. cbn [sql.clock sql.oracle].
  replace (n + sql.clock db + k)%nat with (sql.clock db + (n + k))%nat by lia.
  apply Hruns. lia.
Qed.


Lemma StronglySorted_skipn {A : Type} (R : A -> A -> Prop) (n : nat) (l : list A) :
  StronglySorted R l -> StronglySorted R (skipn n l).
Proof.
  revert l. induction n as [| n IH]; intros l Hsorted; [exact Hsorted|].
  destruct l as [| a l]; [constructor|]. cbn [skipn].
  inversion Hsorted; subst. apply IH. assumption.
Qed.


(** The two pages, when the four statements run. *)
Lemma two_pages_runs (limit : Z) (jurisdiction : option string) (db : sql.DB) :
  0 <= limit -> spec.runs db 4 ->
  spec.two_pages limit jurisdiction db
  = (firstn (Z.to_nat limit)
       (sql.order_by_date_created_desc
          (sql.tiebreak (sql.oracle db (1 + sql.clock db)))
          (spec.matching jurisdiction db)),
     firstn (Z.to_nat limit)
       (skipn (Z.to_nat limit)
          (sql.order_by_date_created_desc
             (sql.tiebreak (sql.oracle db (3 + sql.clock db)))
             (spec.matching jurisdiction db)))).
Proof.
  intros Hlimit Hruns. unfold spec.two_pages.
  postgres.
  rewrite (Postgres_GetAll_runs limit 0 jurisdiction db Hlimit (Z.le_refl 0)
             (runs_fewer db 4 2 ltac:(lia) Hruns)).
  pose proof (runs_later db 2 2 (sql.companies db) Hruns) as Hnext.
  cbn [Nat.add] in Hnext.
  rewrite (Postgres_GetAll_runs limit limit jurisdiction _ Hlimit Hlimit Hnext).
  reflexivity.
Qed.

(** C6, as stated, fails: two records are created at the same instant in
    an empty store; with a page size of 1 the executor may put either
    first, and the pages at offsets 0 and 1 both hold the same record. *)
Lemma GetAll_pages_repeat_on_equal_created_at :
  snd (service.CreateCompany (repo := repository.PostgresCompanyRepository)
         beta_request
         (snd (service.CreateCompany (repo := repository.PostgresCompanyRepository)
                 alpha_request no_twins)))
  = twins
  /\ spec.runs twins 4
  /\ 1 < Z.of_nat (List.length (spec.matching None twins))
  /\ spec.two_pages 1 None twins = ([twin_a], [twin_a])
  /\ ~ spec.cover (spec.two_pages 1 None twins) (spec.matching None twins).
Proof.
  split; [reflexivity|].
  split; [intros k _; reflexivity|]. split; [cbn; lia|].
  split; [reflexivity|].
  intros [Hnodup _]. cbn in Hnodup.
  inversion Hnodup as [| ? ? Hnotin _]. apply Hnotin. left. reflexivity.
Qed.

(** C6, as amended: when its statements run, every page the list operation
    returns, at any offset, is in descending order of creation time, and so
    are the pages at offset 0 and at offset = limit of two requests in
    sequence.  When the matching records have pairwise distinct creation
    times that order is the only one, whatever the executor does, so the
    two pages are one after the other the first 2 * limit records of it,
    without a duplicate, and are all the matching records, each once, when
    there are at most 2 * limit of them. *)
Theorem GetAll_two_pages_with_distinct_created_at
  (db : sql.DB) (limit : Z) (jurisdiction : option string) :
  0 <= limit -> spec.runs db 4 ->
  let pages := spec.two_pages limit jurisdiction db in
  let ordered :=
    sql.order_by_date_created_desc (fun _ _ => true) (spec.matching jurisdiction db) in
  (forall offset, 0 <= offset ->
   exists page total db',
     repository.GetAll (CompanyRepository := repository.PostgresCompanyRepository)
       limit offset jurisdiction db
     = ((page, total, None), db')
     /\ StronglySorted spec.newer_or_same page)
  /\ StronglySorted spec.newer_or_same (fst pages)
  /\ StronglySorted spec.newer_or_same (snd pages)
  /\ (NoDup (map api.Company.DateCreated (spec.matching jurisdiction db)) ->
      StronglySorted spec.newer ordered
      /\ Permutation ordered (spec.matching jurisdiction db)
      /\ (forall arrangement,
          Permutation arrangement (spec.matching jurisdiction db) ->
          StronglySorted spec.newer_or_same arrangement -> arrangement = ordered)
      /\ (forall tb, sql.order_by_date_created_desc tb (spec.matching jurisdiction db)
                     = ordered)
      /\ (fst pages ++ snd pages)%list
         = firstn (Z.to_nat limit + Z.to_nat limit) ordered
      /\ StronglySorted spec.newer (fst pages ++ snd pages)
      /\ NoDup (fst pages ++ snd pages)
      /\ (Z.of_nat (List.length (spec.matching jurisdiction db)) <= 2 * limit ->
          spec.cover pages (spec.matching jurisdiction db))).
Proof.
  intros Hlimit Hruns. cbv zeta.
  set (m := spec.matching jurisdiction db) in *.
  set (ordered := sql.order_by_date_created_desc (fun _ _ => true) m).
  split.
  { intros offset Hoffset. eexists. eexists. eexists. split.
    - postgres.
      rewrite (Postgres_GetAll_runs limit offset jurisdiction db Hlimit Hoffset
                 (runs_fewer db 4 2 ltac:(lia) Hruns)).
      reflexivity.
    - apply StronglySorted_firstn, StronglySorted_skipn, order_sorted. }
  rewrite (two_pages_runs limit jurisdiction db Hlimit Hruns). cbn [fst snd].
  fold m.
  split; [apply StronglySorted_firstn, order_sorted|].
  split; [apply StronglySorted_firstn, StronglySorted_skipn, order_sorted|].
  intros Hdistinct.
  assert (Hperm : Permutation ordered m) by apply order_perm.
  assert (Hsorted : StronglySorted spec.newer ordered).
  { apply sorted_distinct_strict; [|apply order_sorted].
    apply (Permutation_NoDup (l := map api.Company.DateCreated m)); [|exact Hdistinct].
    apply Permutation_map, Permutation_sym, Hperm. }
  assert (Hnodup : NoDup ordered).
  { apply (Permutation_NoDup (Permutation_sym Hperm)).
    exact (NoDup_map_inv _ _ Hdistinct). }
  assert (Hany : forall tb, sql.order_by_date_created_desc tb m = ordered).
  { intros tb. apply order_deterministic. exact Hdistinct. }
  rewrite !Hany.
  assert (Hpages : (firstn (Z.to_nat limit) ordered
                    ++ firstn (Z.to_nat limit) (skipn (Z.to_nat limit) ordered))%list
                   = firstn (Z.to_nat limit + Z.to_nat limit) ordered)
    by apply firstn_firstn_skipn.
  split; [exact Hsorted|]. split; [exact Hperm|].
  split.
  { intros arrangement Harr Hdesc.
    apply strictly_sorted_unique; [|exact Hsorted|].
    - apply sorted_distinct_strict; [|exact Hdesc].
      apply (Permutation_NoDup (l := map api.Company.DateCreated m)); [|exact Hdistinct].
      apply Permutation_map, Permutation_sym, Harr.
    - apply perm_trans with m; [exact Harr | apply Permutation_sym, Hperm]. }
  split; [exact Hany|]. split; [exact Hpages|].
  split; [rewrite Hpages; apply StronglySorted_firstn, Hsorted|].
  split; [rewrite Hpages; apply NoDup_firstn, Hnodup|].
  intros Hfew. unfold spec.cover. cbn [fst snd]. rewrite Hpages.
  rewrite firstn_all2.
  - split; [exact Hnodup | exact Hperm].
  - rewrite (Permutation_length Hperm). lia.
Qed.

Lemma GetAll_two_pages_with_distinct_created_at_witness :
  (0 <= 1
   /\ spec.runs pair 4
   /\ NoDup (map api.Company.DateCreated (spec.matching None pair)))
  /\ spec.two_pages 1 None pair = ([globex], [acme])
  /\ StronglySorted spec.newer_or_same (fst (spec.two_pages 1 None twins))
  /\ spec.cover (spec.two_pages 1 None pair) (spec.matching None pair).
Proof.
  assert (Hruns : spec.runs pair 4) by (intros k _; reflexivity).
  assert (Htwins : spec.runs twins 4) by (intros k _; reflexivity).
  assert (Hdistinct : NoDup (map api.Company.DateCreated (spec.matching None pair))).
  { cbn. constructor; [intros [H | []]; discriminate H|].
    constructor; [intros [] | constructor]. }
  split; [split; [lia | split; assumption]|]. split; [reflexivity|].
  split.
  - apply (GetAll_two_pages_with_distinct_created_at twins 1 None
             ltac:(lia) Htwins).
  - apply (GetAll_two_pages_with_distinct_created_at pair 1 None
             ltac:(lia) Hruns); [exact Hdistinct|].
    cbn. lia.
Defined.

(** ** The boundary: what a caller sees of a storage failure *)

Lemma query_int_parsed (Atoi : string -> Z + error) (s : string) (lo : Z) :
  (s = "" \/ exists n, Atoi s = inl n /\ lo <= n) ->
  exists N,
    (if negb (String.eqb s "")
     then match Atoi s with
          | inl n => inl (Some n)
          | inr _ => inr tt
          end
     else inl None) = inl N
    /\ forall n, N = Some n -> lo <= n.
Proof.
  intros [-> | [n [Hparse Hn]]].
  - exists None. split; [reflexivity | discriminate].
  - destruct (negb (String.eqb s "")).
    + rewrite Hparse. exists (Some n). split; [reflexivity|]. intros ? [= <-]. exact Hn.
    + exists None. split; [reflexivity | discriminate].
Qed.

Lemma GetCompanies_storage_failure (Atoi : string -> Z + error) (r : http.Request)
  (entries : list zap.Entry) (db : sql.DB) (e : error) :
  (http.Query r "limit" = ""
   \/ exists l, Atoi (http.Query r "limit") = inl l /\ 1 <= l <= 100) ->
  (http.Query r "offset" = ""
   \/ exists o, Atoi (http.Query r "offset") = inl o /\ 0 <= o) ->
  spec.fails db e ->
  fst (handlers.GetCompanies (repo := repository.PostgresCompanyRepository)
         Atoi r (entries, db))
  = spec.opaque http.StatusInternalServerError "Failed to retrieve companies".
Proof.
  intros Hlimit Hoffset Hfail.
  assert (Hlimit' : http.Query r "limit" = ""
                    \/ exists l, Atoi (http.Query r "limit") = inl l /\ 1 <= l).
  { destruct Hlimit as [H | [l [H Hl]]]; [left; exact H | right; exists l; split; [exact H | lia]]. }
  destruct (query_int_parsed Atoi _ 1 Hlimit') as [L [HL HLlo]].
  destruct (query_int_parsed Atoi _ 0 Hoffset) as [O [HO HOlo]].
  assert (HLhi : forall l, L = Some l -> l <= 100).
  { intros l ->. destruct Hlimit as [H | [l' [H Hl']]].
    - rewrite H in HL. discriminate.
    - destruct (negb _); [|discriminate]. rewrite H in HL. injection HL as <-. lia. }
  unfold handlers.GetCompanies, bind, handlers.logger, handlers.call.
  rewrite HL, HO.
  rewrite ListCompanies_calls_GetAll.
  - cbv zeta.
    postgres.
    rewrite (Postgres_GetAll_count_fails _ _ _ db e Hfail). reflexivity.
  - unfold spec.limit_in_range, spec.effective_limit. cbn.
    destruct L as [l|]; [|lia]. specialize (HLlo l eq_refl). specialize (HLhi l eq_refl). lia.
  - unfold spec.offset_in_range, spec.effective_offset. cbn.
    destruct O as [o|]; [|lia]. exact (HOlo o eq_refl).
Qed.

Lemma Postgres_GetAll_page_fails (limit offset : Z) (jurisdiction : option string)
  (db : sql.DB) (e : error) :
  sql.fault (sql.turn db) = None ->
  spec.fails (sql.mkDB (sql.companies db) (S (sql.clock db)) (sql.oracle db)) e ->
  repository.Postgres.GetAll limit offset jurisdiction db
  = (([], 0, Some e),
     sql.mkDB (sql.companies db) (S (S (sql.clock db))) (sql.oracle db)).
Proof.
  intros Hrun Hfail. unfold repository.Postgres.GetAll, sql.SelectCount, sql.SelectPage, bind.
  rewrite statement_runs by exact Hrun. cbn [fst snd].
  rewrite (statement_fails _ _ e Hfail). reflexivity.
Qed.

(** Whatever error [ListCompanies] returns, the caller of [GetCompanies]
    sees the same fixed message. *)
Lemma GetCompanies_error_is_opaque {St : Type} (R : repository.CompanyRepository St)
  (Atoi : string -> Z + error) (r : http.Request) (s : list zap.Entry * St) :
  let response := fst (handlers.GetCompanies (repo := R) Atoi r s) in
  http.StatusCode response = http.StatusOK
  \/ response = spec.opaque http.StatusBadRequest "Invalid limit parameter"
  \/ response = spec.opaque http.StatusBadRequest "Invalid offset parameter"
  \/ response = spec.opaque http.StatusInternalServerError "Failed to retrieve companies".
Proof.
  destruct s as [entries st]. cbv zeta.
  unfold handlers.GetCompanies, bind, handlers.logger, handlers.call.
  destruct (if negb (String.eqb (http.Query r "limit") "") then _ else _) as [L | []];
    [|right; left; reflexivity].
  destruct (if negb (String.eqb (http.Query r "offset") "") then _ else _) as [O | []];
    [|right; right; left; reflexivity].
  destruct (service.ListCompanies _ st) as [[response [err|]] st'].
  - right; right; right. reflexivity.
  - left. reflexivity.
Qed.

Lemma GetCompanyByID_storage_failure (uuid_Parse : string -> api.UUID + error)
  (r : http.Request) (entries : list zap.Entry) (db : sql.DB) (id : api.UUID)
  (e : error) :
  uuid_Parse (http.URLParam r "id") = inl id ->
  spec.fails db e -> is_ErrNoRows e = false ->
  fst (handlers.GetCompanyByID (repo := repository.PostgresCompanyRepository)
         uuid_Parse r (entries, db))
  = spec.opaque http.StatusInternalServerError "Failed to retrieve company".
Proof.
  intros Hparse Hfail Hsentinel.
  unfold handlers.GetCompanyByID, bind, handlers.logger, handlers.call.
  rewrite Hparse, (GetCompanyByID_fails id db e Hfail Hsentinel). reflexivity.
Qed.

Lemma Postgres_Delete_fails (id : api.UUID) (db : sql.DB) (e : error) :
  spec.fails db e ->
  repository.Postgres.Delete id db
  = (Some e, sql.mkDB (sql.companies db) (S (sql.clock db)) (sql.oracle db)).
Proof.
  intros Hfail. unfold repository.Postgres.Delete, sql.Delete, bind.
  rewrite (statement_fails _ db e Hfail). reflexivity.
Qed.

Lemma DeleteCompany_storage_failure (uuid_Parse : string -> api.UUID + error)
  (r : http.Request) (entries : list zap.Entry) (db : sql.DB) (id : api.UUID)
  (e : error) :
  uuid_Parse (http.URLParam r "id") = inl id ->
  spec.fails db e -> Error e <> "sql: no rows in result set" ->
  fst (handlers.DeleteCompany (repo := repository.PostgresCompanyRepository)
         uuid_Parse r (entries, db))
  = spec.opaque http.StatusInternalServerError "Failed to delete company".
Proof.
  intros Hparse Hfail Hmessage.
  unfold handlers.DeleteCompany, bind, handlers.logger, handlers.call.
  rewrite Hparse, DeleteCompany_classifies.
  postgres.
  rewrite (Postgres_Delete_fails id db e Hfail). cbn [fst snd].
  apply String.eqb_neq in Hmessage. rewrite Hmessage. reflexivity.
Qed.

(** C8 does not hold of [CreateCompany]: when the store fails on a valid
    request, the handler answers 400 and its message carries the text of
    the storage error, where the three other handlers answer 500 with a
    fixed message. *)
Theorem CreateCompany_storage_failure_reaches_caller
  (Decode : string -> api.CreateCompanyRequest.t + error) (r : http.Request)
  (entries : list zap.Entry) (db : sql.DB) (req : api.CreateCompanyRequest.t)
  (e : error) :
  Decode (http.Body r) = inl req ->
  service.validateCreateRequest req = None ->
  spec.fails db e ->
  fst (handlers.CreateCompany (repo := repository.PostgresCompanyRepository)
         Decode r (entries, db))
  = spec.opaque http.StatusBadRequest ("failed to create company: " ++ Error e).
Proof.
  intros Hdecode Hvalid Hfail.
  unfold handlers.CreateCompany, bind, handlers.logger, handlers.call.
  rewrite Hdecode. unfold service.CreateCompany. rewrite Hvalid. unfold bind.
  postgres.
  rewrite (Postgres_Create_fails req db e Hfail). reflexivity.
Qed.

Lemma CreateCompany_storage_failure_reaches_caller_witness :
  fst (handlers.CreateCompany (repo := repository.PostgresCompanyRepository)
         decode_acme post_acme ([], db_down))
  = spec.opaque 400
      "failed to create company: dial tcp 10.0.0.5:5432: connect: connection refused".
Proof.
  exact (CreateCompany_storage_failure_reaches_caller decode_acme post_acme []
           db_down acme_request refused eq_refl eq_refl eq_refl).
Defined.

(** * Further properties *)

(** ** The boundary: status codes *)

Section Handlers.

Context {St : Type} (R : repository.CompanyRepository St).

Lemma GetCompanyByID_classifies (id : api.UUID) (st : St) :
  service.GetCompanyByID (repo := R) id st
  = (match fst (repository.GetByID (CompanyRepository := R) id st) with
     | (_, Some e) => (None, Some (ErrorfW "failed to retrieve company: " e))
     | (None, None) => (None, Some (Errorf "company not found"))
     | (Some company, None) => (Some company, None)
     end, snd (repository.GetByID (CompanyRepository := R) id st)).
Proof.
  unfold service.GetCompanyByID, bind, ret.
  destruct (repository.GetByID id st) as [[[company|] [e|]] st']; reflexivity.
Qed.

(** X3: [GetCompanyByID] answers 400 to an identifier that does not parse,
    without reaching the service; otherwise 500 with a fixed message when
    the repository returns an error, whatever its message, 404 when it
    returns neither a record nor an error, and 200 with the record when it
    returns one. *)
Theorem handlers_GetCompanyByID_status (uuid_Parse : string -> api.UUID + error)
  (r : http.Request) (entries : list zap.Entry) (st : St) :
  let run := handlers.GetCompanyByID (repo := R) uuid_Parse r (entries, st) in
  (forall e, uuid_Parse (http.URLParam r "id") = inr e ->
   fst run = spec.opaque http.StatusBadRequest "Invalid company ID format"
   /\ snd (snd run) = st)
  /\ (forall id company err st',
      uuid_Parse (http.URLParam r "id") = inl id ->
      repository.GetByID (CompanyRepository := R) id st = ((company, err), st') ->
      snd (snd run) = st'
      /\ fst run
         = match err, company with
           | Some _, _ =>
             spec.opaque http.StatusInternalServerError "Failed to retrieve company"
           | None, None => spec.opaque http.StatusNotFound "Company not found"
           | None, Some c =>
             http.mkResponse "application/json" http.StatusOK
               (Some (http.CompanyData (Some c)))
           end).
Proof.
  cbv zeta. unfold handlers.GetCompanyByID, bind, handlers.logger, handlers.call.
  split.
  - intros e Hparse. rewrite Hparse. split; reflexivity.
  - intros id company err st' Hparse Hget. rewrite Hparse.
    rewrite GetCompanyByID_classifies, Hget. cbn [fst snd].
    destruct err as [e|]; destruct company; cbn; split; reflexivity.
Qed.

(** X4: [DeleteCompany] answers 400 to an identifier that does not parse,
    without reaching the service; otherwise 204 with no body when the
    repository returns no error, 404 when it returns an error whose message
    is "sql: no rows in result set", and 500 with a fixed message for any
    other error. *)
Theorem handlers_DeleteCompany_status (uuid_Parse : string -> api.UUID + error)
  (r : http.Request) (entries : list zap.Entry) (st : St) :
  let run := handlers.DeleteCompany (repo := R) uuid_Parse r (entries, st) in
  (forall e, uuid_Parse (http.URLParam r "id") = inr e ->
   fst run = spec.opaque http.StatusBadRequest "Invalid company ID format"
   /\ snd (snd run) = st)
  /\ (forall id err st',
      uuid_Parse (http.URLParam r "id") = inl id ->
      repository.Delete (CompanyRepository := R) id st = (err, st') ->
      snd (snd run) = st'
      /\ fst run
         = match err with
           | None => http.mkResponse "" http.StatusNoContent None
           | Some e =>
             if String.eqb (Error e) "sql: no rows in result set"
             then spec.opaque http.StatusNotFound "Company not found"
             else spec.opaque http.StatusInternalServerError "Failed to delete company"
           end).
Proof.
  cbv zeta. unfold handlers.DeleteCompany, bind, handlers.logger, handlers.call.
  split.
  - intros e Hparse. rewrite Hparse. split; reflexivity.
  - intros id err st' Hparse Hdel. rewrite Hparse.
    rewrite DeleteCompany_classifies, Hdel. cbn [fst snd].
    destruct err as [e|]; [|split; reflexivity].
    destruct (String.eqb (Error e) "sql: no rows in result set"); cbn;
      split; reflexivity.
Qed.

(** X5: [CreateCompany] answers 400 "Invalid request body" to a body that
    does not decode and 400 with the message of the rule to a request that
    fails validation, in both cases without reaching the repository; for a
    valid request it answers 201 with what the repository returns, or 400
    with the repository's error behind "failed to create company: ". *)
Theorem handlers_CreateCompany_status
  (Decode : string -> api.CreateCompanyRequest.t + error)
  (r : http.Request) (entries : list zap.Entry) (st : St) :
  let run := handlers.CreateCompany (repo := R) Decode r (entries, st) in
  (forall e, Decode (http.Body r) = inr e ->
   fst run = spec.opaque http.StatusBadRequest "Invalid request body"
   /\ snd (snd run) = st)
  /\ (forall req e, Decode (http.Body r) = inl req ->
      service.validateCreateRequest req = Some e ->
      fst run = spec.opaque http.StatusBadRequest (Error e)
      /\ spec.validation_error e
      /\ snd (snd run) = st)
  /\ (forall req company err st', Decode (http.Body r) = inl req ->
      service.validateCreateRequest req = None ->
      repository.Create (CompanyRepository := R) req st = ((company, err), st') ->
      snd (snd run) = st'
      /\ fst run
         = match err with
           | None =>
             http.mkResponse "application/json" http.StatusCreated
               (Some (http.CompanyData company))
           | Some e =>
             spec.opaque http.StatusBadRequest ("failed to create company: " ++ Error e)
           end).
Proof.
  cbv zeta. unfold handlers.CreateCompany, bind, handlers.logger, handlers.call.
  split; [|split].
  - intros e Hdecode. rewrite Hdecode. split; reflexivity.
  - intros req e Hdecode Hvalid. rewrite Hdecode.
    unfold service.CreateCompany. rewrite Hvalid.
    split; [reflexivity|]. split; [|reflexivity].
    exact (validateCreateRequest_error req e Hvalid).
  - intros req company err st' Hdecode Hvalid Hcreate. rewrite Hdecode.
    unfold service.CreateCompany. rewrite Hvalid. unfold bind. rewrite Hcreate.
    destruct err; split; reflexivity.
Qed.

End Handlers.

Lemma parameter_read (Atoi : string -> Z + error) (text : string) (value : option Z) :
  facts.parameter Atoi text value ->
  (if negb (String.eqb text "")
   then match Atoi text with
        | inl n => inl (Some n)
        | inr _ => inr tt
        end
   else inl None) = inl value.
Proof.
  intros [[-> ->] | [Hne [n [Hparse ->]]]]; [reflexivity|].
  apply String.eqb_neq in Hne. rewrite Hne, Hparse. reflexivity.
Qed.

Section GetCompanies.

Context {St : Type} (R : repository.CompanyRepository St).
Variable Atoi : string -> Z + error.

(** X1: [GetCompanies] answers 400 "Invalid limit parameter" when the limit
    is present and is not an integer, and 400 "Invalid offset parameter"
    when the limit is absent or an integer and the offset is present and is
    not one; in both cases the service is not reached. *)
Theorem handlers_GetCompanies_malformed (r : http.Request)
  (entries : list zap.Entry) (st : St) :
  let run := handlers.GetCompanies (repo := R) Atoi r (entries, st) in
  (forall e, http.Query r "limit" <> "" -> Atoi (http.Query r "limit") = inr e ->
   fst run = spec.opaque http.StatusBadRequest "Invalid limit parameter"
   /\ snd (snd run) = st)
  /\ (forall limit e,
      facts.parameter Atoi (http.Query r "limit") limit ->
      http.Query r "offset" <> "" -> Atoi (http.Query r "offset") = inr e ->
      fst run = spec.opaque http.StatusBadRequest "Invalid offset parameter"
      /\ snd (snd run) = st).
Proof.
  cbv zeta. unfold handlers.GetCompanies, bind, handlers.logger, handlers.call.
  split.
  - intros e Hne Hparse. apply String.eqb_neq in Hne. rewrite Hne, Hparse.
    split; reflexivity.
  - intros limit e Hlimit Hne Hparse.
    rewrite (parameter_read Atoi _ limit Hlimit).
    apply String.eqb_neq in Hne. rewrite Hne, Hparse. split; reflexivity.
Qed.

Lemma GetCompanies_parsed (r : http.Request) (params : api.GetCompaniesParams.t)
  (entries : list zap.Entry) (st : St) :
  facts.parsed Atoi r params ->
  handlers.GetCompanies (repo := R) Atoi r (entries, st)
  = (let '((response, err), st') := service.ListCompanies (repo := R) params st in
     let info := zap.mkEntry zap.InfoLevel "Getting companies list" [] in
     match err with
     | Some e =>
       (spec.opaque http.StatusInternalServerError "Failed to retrieve companies",
        ((entries ++ [info]
          ++ [zap.mkEntry zap.ErrorLevel "Failed to get companies"
                [("error", Error e)]])%list, st'))
     | None =>
       (http.mkResponse "application/json" http.StatusOK
          (Some (http.CompaniesData response)),
        ((entries ++ [info])%list, st'))
     end).
Proof.
  intros (Hlimit & Hoffset & Hjurisdiction).
  unfold handlers.GetCompanies, bind, handlers.logger, handlers.call.
  rewrite (parameter_read Atoi _ _ Hlimit), (parameter_read Atoi _ _ Hoffset).
  assert (Hparams : api.GetCompaniesParams.mk
                      (api.GetCompaniesParams.Limit params)
                      (api.GetCompaniesParams.Offset params)
                      (if negb (String.eqb (http.Query r "jurisdiction") "")
                       then Some (http.Query r "jurisdiction") else None)
                    = params).
  { destruct params as [l o j]. cbn in *. rewrite Hjurisdiction.
    destruct (String.eqb _ ""); reflexivity. }
  rewrite Hparams.
  destruct (service.ListCompanies params st) as [[response [e|]] st'];
    cbn; rewrite <- ?app_assoc; reflexivity.
Qed.

(** X2: for a list request whose parameters are integers, a limit outside
    [1,100] or a negative offset is answered with 500 "Failed to retrieve
    companies", the repository's state being as it was; otherwise the
    answer is 500 with that message when the repository's [GetAll] returns
    an error and 200 with the page, the total, the limit and the offset
    when it does not. *)
Theorem handlers_GetCompanies_status (r : http.Request)
  (params : api.GetCompaniesParams.t) (entries : list zap.Entry) (st : St) :
  facts.parsed Atoi r params ->
  let run := handlers.GetCompanies (repo := R) Atoi r (entries, st) in
  (~ (spec.limit_in_range params /\ spec.offset_in_range params) ->
   fst run = spec.opaque http.StatusInternalServerError "Failed to retrieve companies"
   /\ snd (snd run) = st)
  /\ (spec.limit_in_range params -> spec.offset_in_range params ->
      forall companies total err st',
        repository.GetAll (CompanyRepository := R)
          (spec.effective_limit params) (spec.effective_offset params)
          (api.GetCompaniesParams.Jurisdiction params) st
        = ((companies, total, err), st') ->
        snd (snd run) = st'
        /\ fst run
           = match err with
             | Some _ =>
               spec.opaque http.StatusInternalServerError
                 "Failed to retrieve companies"
             | None =>
               http.mkResponse "application/json" http.StatusOK
                 (Some (http.CompaniesData
                    (Some (api.CompaniesResponse.mk companies total
                             (spec.effective_limit params)
                             (spec.effective_offset params)))))
             end).
Proof.
  intros Hparsed. cbv zeta. rewrite (GetCompanies_parsed r params entries st Hparsed).
  split.
  - intros Hrange.
    assert (Hlist : exists e, service.ListCompanies (repo := R) params st
                              = ((None, Some e), st)).
    { unfold spec.limit_in_range, spec.offset_in_range in Hrange.
      destruct (Z_le_dec 1 (spec.effective_limit params)) as [Hlo|Hlo];
        [destruct (Z_le_dec (spec.effective_limit params) 100) as [Hhi|Hhi]|].
      - eexists. apply ListCompanies_rejects_offset.
        + split; assumption.
        + intros Ho. apply Hrange. split; [split|]; assumption.
      - eexists. apply ListCompanies_rejects_limit. unfold spec.limit_in_range. lia.
      - eexists. apply ListCompanies_rejects_limit. unfold spec.limit_in_range. lia. }
    destruct Hlist as [e ->]. split; reflexivity.
  - intros Hlimit Hoffset companies total err st' Hget.
    rewrite (ListCompanies_calls_GetAll params st Hlimit Hoffset). cbv zeta.
    rewrite Hget. destruct err; split; reflexivity.
Qed.

End GetCompanies.

Lemma handlers_GetCompanies_status_witness :
  facts.parsed decimal get_limit_200 (api.GetCompaniesParams.mk (Some 200) None None)
  /\ fst (handlers.GetCompanies
            (repo := repository.Recording repository.PostgresCompanyRepository)
            decimal get_limit_200 ([], ([], db_acme)))
     = spec.opaque 500 "Failed to retrieve companies"
  /\ snd (snd (handlers.GetCompanies
                 (repo := repository.Recording repository.PostgresCompanyRepository)
                 decimal get_limit_200 ([], ([], db_acme))))
     = ([], db_acme).
Proof.
  assert (Hparsed : facts.parsed decimal get_limit_200
                      (api.GetCompaniesParams.mk (Some 200) None None)).
  { split; [|split; [left; split|]; reflexivity].
    right. split; [discriminate|]. exists 200. split; reflexivity. }
  split; [exact Hparsed|].
  apply (handlers_GetCompanies_status
           (repository.Recording repository.PostgresCompanyRepository)
           decimal get_limit_200 _ [] ([], db_acme) Hparsed).
  unfold spec.limit_in_range. cbn. lia.
Defined.

(** ** The boundary: envelopes *)

Ltac envelope :=
  unfold facts.well_formed, spec.opaque;
  first [ left; reflexivity
        | right; left; eexists; eexists; refine (conj _ eq_refl); cbn; tauto
        | right; right; left; eexists; reflexivity
        | right; right; right; eexists; eexists; refine (conj _ eq_refl); cbn; tauto ].

Section Envelope.

Context {St : Type} (R : repository.CompanyRepository St).
Variable Atoi : string -> Z + error.
Variable uuid_Parse : string -> api.UUID + error.
Variable Decode : string -> api.CreateCompanyRequest.t + error.
Variable r : http.Request.
Variable s : list zap.Entry * St.

(** X6: whatever the request, the parsers and the repository do, each of
    the four handlers writes either 204 with no body, or an error envelope
    with status 400, 404 or 500, or a JSON payload with status 200 or 201. *)
Theorem handlers_write_well_formed_responses :
  facts.well_formed (fst (handlers.GetCompanies (repo := R) Atoi r s))
  /\ facts.well_formed (fst (handlers.GetCompanyByID (repo := R) uuid_Parse r s))
  /\ facts.well_formed (fst (handlers.CreateCompany (repo := R) Decode r s))
  /\ facts.well_formed (fst (handlers.DeleteCompany (repo := R) uuid_Parse r s)).
Proof.
  destruct s as [entries st]. split; [|split; [|split]].
  - unfold handlers.GetCompanies, bind, handlers.logger, handlers.call.
    destruct (if negb (String.eqb (http.Query r "limit") "") then _ else _)
      as [L | []]; [|envelope].
    destruct (if negb (String.eqb (http.Query r "offset") "") then _ else _)
      as [O | []]; [|envelope].
    destruct (service.ListCompanies _ st) as [[response [err|]] st']; envelope.
  - unfold handlers.GetCompanyByID, bind, handlers.logger, handlers.call.
    destruct (uuid_Parse _) as [id | e]; [|envelope].
    rewrite GetCompanyByID_classifies.
    destruct (repository.GetByID id st) as [[[company|] [e|]] st']; cbn; envelope.
  - unfold handlers.CreateCompany, bind, handlers.logger, handlers.call.
    destruct (Decode _) as [req | e]; [|envelope].
    destruct (service.CreateCompany req st) as [[company [e|]] st']; envelope.
  - unfold handlers.DeleteCompany, bind, handlers.logger, handlers.call.
    destruct (uuid_Parse _) as [id | e]; [|envelope].
    rewrite DeleteCompany_classifies.
    destruct (repository.Delete id st) as [[e|] st']; cbn; [|envelope].
    destruct (String.eqb (Error e) "sql: no rows in result set"); cbn; envelope.
Qed.

End Envelope.

(** ** The repository: what is read and what is changed *)

Lemma statement_rows {A : Type}
  (body : sql.Turn -> list api.Company.t -> (A + error) * list api.Company.t)
  (db : sql.DB) :
  (forall t rows, snd (body t rows) = rows) ->
  sql.companies (snd (sql.statement body db)) = sql.companies db.
Proof.
  intros Hreads. unfold sql.statement.
  destruct (sql.fault (sql.turn db)); [reflexivity|].
  specialize (Hreads (sql.turn db) (sql.companies db)).
  destruct (body _ _) as [a rows]. exact Hreads.
Qed.

Lemma Postgres_GetAll_rows (limit offset : Z) (jurisdiction : option string)
  (db : sql.DB) :
  sql.companies (snd (repository.Postgres.GetAll limit offset jurisdiction db))
  = sql.companies db.
Proof.
  unfold repository.Postgres.GetAll, bind, ret.
  pose proof (statement_rows
                (fun (_ : sql.Turn) rows =>
                   (@inl Z error
                      (Z.of_nat (List.length
                         (filter (sql.where_jurisdiction jurisdiction) rows))), rows))
                db (fun _ _ => eq_refl)) as Hcount.
  fold (sql.SelectCount jurisdiction) in Hcount.
  destruct (sql.SelectCount jurisdiction db) as [[total | e] db1]; [|exact Hcount].
  cbn [snd] in Hcount. rewrite <- Hcount.
  assert (Hpage : sql.companies (snd (sql.SelectPage jurisdiction limit offset db1))
                  = sql.companies db1).
  { apply statement_rows. intros t rows.
    destruct (limit <? 0); [reflexivity|]. destruct (offset <? 0); reflexivity. }
  destruct (sql.SelectPage jurisdiction limit offset db1) as [[rows | e] db2];
    exact Hpage.
Qed.

Lemma Postgres_GetByID_rows (id : api.UUID) (db : sql.DB) :
  sql.companies (snd (repository.Postgres.GetByID id db)) = sql.companies db.
Proof.
  unfold repository.Postgres.GetByID, bind, ret.
  assert (Hread : sql.companies (snd (sql.SelectByID id db)) = sql.companies db).
  { apply statement_rows. intros t rows. destruct (find _ rows); reflexivity. }
  destruct (sql.SelectByID id db) as [[company | e] db1]; [exact Hread|].
  destruct (is_ErrNoRows e); exact Hread.
Qed.

Lemma filter_keeps_all {A : Type} (f : A -> bool) (l : list A) :
  (forall x, In x l -> f x = true) -> filter f l = l.
Proof.
  induction l as [| a l IH]; intros Hall; [reflexivity|].
  cbn [filter]. rewrite (Hall a (or_introl eq_refl)). f_equal.
  apply IH. intros x Hin. apply Hall. right. exact Hin.
Qed.

Lemma ListCompanies_rows (params : api.GetCompaniesParams.t) (db : sql.DB) :
  sql.companies
    (snd (service.ListCompanies (repo := repository.PostgresCompanyRepository)
            params db)) = sql.companies db.
Proof.
  destruct (Z_le_dec 1 (spec.effective_limit params)) as [Hlo|Hlo];
    [destruct (Z_le_dec (spec.effective_limit params) 100) as [Hhi|Hhi]|];
    [|rewrite ListCompanies_rejects_limit
        by (unfold spec.limit_in_range; lia); reflexivity ..].
  destruct (Z_le_dec 0 (spec.effective_offset params)) as [Ho|Ho];
    [|rewrite ListCompanies_rejects_offset
        by (unfold spec.limit_in_range, spec.offset_in_range; lia); reflexivity].
  rewrite ListCompanies_calls_GetAll
    by (unfold spec.limit_in_range, spec.offset_in_range; lia).
  cbv zeta. postgres.
  pose proof (Postgres_GetAll_rows (spec.effective_limit params)
                (spec.effective_offset params)
                (api.GetCompaniesParams.Jurisdiction params) db) as Hrows.
  destruct (repository.Postgres.GetAll _ _ _ db) as [[[companies total] err] db'].
  exact Hrows.
Qed.

Lemma GetCompanyByID_rows (id : api.UUID) (db : sql.DB) :
  sql.companies
    (snd (service.GetCompanyByID (repo := repository.PostgresCompanyRepository)
            id db)) = sql.companies db.
Proof.
  unfold service.GetCompanyByID, bind. postgres.
  pose proof (Postgres_GetByID_rows id db) as Hrows.
  destruct (repository.Postgres.GetByID id db) as [[[company|] [e|]] db'];
    exact Hrows.
Qed.

(** The table after [CreateCompany]: as it was, or with one more row whose
    fields are those of the request, which then is a valid one; the
    sec_code is as the column keeps it. *)
Lemma CreateCompany_rows (req : api.CreateCompanyRequest.t) (db : sql.DB) :
  let rows' := sql.companies
                 (snd (service.CreateCompany
                         (repo := repository.PostgresCompanyRepository) req db)) in
  rows' = sql.companies db
  \/ (service.validateCreateRequest req = None
      /\ exists company,
           rows' = (sql.companies db ++ [company])%list
           /\ api.Company.Jurisdiction company
              = api.CreateCompanyRequest.Jurisdiction req
           /\ api.Company.CompanyName company
              = api.CreateCompanyRequest.CompanyName req
           /\ api.Company.CompanyAddress company
              = api.CreateCompanyRequest.CompanyAddress req
           /\ api.Company.NatureOfBusiness company
              = api.CreateCompanyRequest.NatureOfBusiness req
           /\ api.Company.NumberOfDirectors company
              = api.CreateCompanyRequest.NumberOfDirectors req
           /\ api.Company.NumberOfShareholders company
              = api.CreateCompanyRequest.NumberOfShareholders req
           /\ api.Company.SecCode company
              = option_map (sql.varchar 50) (api.CreateCompanyRequest.SecCode req)).
Proof.
  cbv zeta. unfold service.CreateCompany.
  destruct (service.validateCreateRequest req) eqn:Hvalid; [left; reflexivity|].
  unfold bind. postgres.
  unfold repository.Postgres.Create, sql.Insert, sql.statement, bind, ret.
  destruct (sql.fault (sql.turn db)); [left; reflexivity|].
  destruct (validated_columns req Hvalid) as [Hjurisdiction Hname].
  right. split; [reflexivity|]. eexists.
  cbn [snd fst sql.companies api.Company.CompanyName api.Company.CompanyAddress
       api.Company.Jurisdiction api.Company.NatureOfBusiness
       api.Company.NumberOfDirectors api.Company.NumberOfShareholders
       api.Company.SecCode].
  repeat (split; [first [reflexivity | assumption]|]). reflexivity.
Qed.

(** The table after [DeleteCompany]: as it was, or without the rows that
    have the identifier. *)
Lemma DeleteCompany_rows (id : api.UUID) (db : sql.DB) :
  let rows' := sql.companies
                 (snd (service.DeleteCompany
                         (repo := repository.PostgresCompanyRepository) id db)) in
  rows' = sql.companies db
  \/ rows' = filter (fun c => negb (sql.where_id id c)) (sql.companies db).
Proof.
  cbv zeta. rewrite DeleteCompany_classifies. cbn [snd]. postgres.
  unfold repository.Postgres.Delete, sql.Delete, sql.statement, bind, ret.
  destruct (sql.fault (sql.turn db)); [left; reflexivity|].
  right. cbn [fst snd]. destruct (_ =? 0); reflexivity.
Qed.

(** ** The repository: fetching, creating and deleting records *)

Lemma GetCompanyByID_runs (id : api.UUID) (db : sql.DB) :
  sql.fault (sql.turn db) = None ->
  service.GetCompanyByID (repo := repository.PostgresCompanyRepository) id db
  = (match find (sql.where_id id) (sql.companies db) with
     | Some company => (Some company, None)
     | None => (None, Some (Errorf "company not found"))
     end,
     sql.mkDB (sql.companies db) (S (sql.clock db)) (sql.oracle db)).
Proof.
  intros Hrun. rewrite GetCompanyByID_classifies. postgres.
  unfold repository.Postgres.GetByID, sql.SelectByID, bind.
  rewrite statement_runs by exact Hrun.
  destruct (find (sql.where_id id) (sql.companies db)); reflexivity.
Qed.

Lemma find_where_id_stored (db : sql.DB) (id : api.UUID) :
  spec.stored db id ->
  exists company,
    find (sql.where_id id) (sql.companies db) = Some company
    /\ In company (sql.companies db) /\ api.Company.Id company = id.
Proof.
  intros [c [Hin Hid]].
  destruct (find (sql.where_id id) (sql.companies db)) as [company|] eqn:Hfind.
  - exists company. split; [reflexivity|].
    apply find_some in Hfind. destruct Hfind as [Hin' Hmatch].
    split; [exact Hin'|]. apply N.eqb_eq. exact Hmatch.
  - pose proof (find_none _ _ Hfind c Hin) as Hno.
    unfold sql.where_id in Hno. apply N.eqb_neq in Hno. contradiction.
Qed.

Lemma NoDup_map_injective {A B : Type} (f : A -> B) (l : list A) (a b : A) :
  NoDup (map f l) -> In a l -> In b l -> f a = f b -> a = b.
Proof.
  induction l as [| x l IH]; intros Hnodup Ha Hb Heq; [destruct Ha|].
  cbn [map] in Hnodup. inversion Hnodup as [| ? ? Hnotin Hrest]; subst.
  destruct Ha as [-> | Ha], Hb as [-> | Hb].
  - reflexivity.
  - exfalso. apply Hnotin. rewrite Heq. apply in_map. exact Hb.
  - exfalso. apply Hnotin. rewrite <- Heq. apply in_map. exact Ha.
  - exact (IH Hrest Ha Hb Heq).
Qed.

(** X9: when the statement runs, [GetCompanyByID] on a stored identifier
    returns a stored record with that identifier and leaves the table as it
    was; when identifiers are unique in the table it is the record with
    that identifier. *)
Theorem GetCompanyByID_returns_the_stored_record (db : sql.DB) (id : api.UUID) :
  sql.fault (sql.turn db) = None ->
  spec.stored db id ->
  exists company db',
    service.GetCompanyByID (repo := repository.PostgresCompanyRepository) id db
    = ((Some company, None), db')
    /\ In company (sql.companies db)
    /\ api.Company.Id company = id
    /\ sql.companies db' = sql.companies db
    /\ (NoDup (map api.Company.Id (sql.companies db)) ->
        forall c, In c (sql.companies db) -> api.Company.Id c = id -> c = company).
Proof.
  intros Hrun Hstored.
  destruct (find_where_id_stored db id Hstored) as (company & Hfind & Hin & Hid).
  exists company. eexists. rewrite (GetCompanyByID_runs id db Hrun), Hfind.
  split; [reflexivity|]. split; [exact Hin|]. split; [exact Hid|].
  split; [reflexivity|].
  intros Hunique c Hc Hcid.
  apply (NoDup_map_injective api.Company.Id (sql.companies db)); try assumption.
  congruence.
Qed.

Lemma GetCompanyByID_returns_the_stored_record_witness :
  (sql.fault (sql.turn pair) = None /\ spec.stored pair 2%N)
  /\ exists company db',
       service.GetCompanyByID (repo := repository.PostgresCompanyRepository) 2%N pair
       = ((Some company, None), db')
       /\ In company (sql.companies pair)
       /\ api.Company.Id company = 2%N.
Proof.
  assert (Hstored : spec.stored pair 2%N).
  { exists globex. split; [right; left; reflexivity | reflexivity]. }
  split; [split; [reflexivity | exact Hstored]|].
  destruct (GetCompanyByID_returns_the_stored_record pair 2%N eq_refl Hstored)
    as (company & db' & Hget & Hin & Hid & _).
  exists company, db'. repeat split; assumption.
Defined.

Lemma find_app {A : Type} (f : A -> bool) (l1 l2 : list A) :
  find f (l1 ++ l2)%list
  = match find f l1 with
    | Some x => Some x
    | None => find f l2
    end.
Proof.
  induction l1 as [| a l1 IH]; [reflexivity|].
  cbn [app find]. destruct (f a); [reflexivity | exact IH].
Qed.

(** X10: a valid request that is created, with an identifier no stored
    record has, is read back by [GetCompanyByID] under the identifier it
    was given: the record returned by the fetch is the record returned by
    the creation; its name, address and jurisdiction are the request's,
    and all its fields are the request when the sec_code is absent or has
    at most 50 characters. *)
Theorem CreateCompany_then_GetCompanyByID (req : api.CreateCompanyRequest.t)
  (db : sql.DB) :
  service.validateCreateRequest req = None ->
  spec.runs db 2 ->
  ~ spec.stored db (sql.uuid (sql.turn db)) ->
  exists company db1 db2,
    service.CreateCompany (repo := repository.PostgresCompanyRepository) req db
    = ((Some company, None), db1)
    /\ service.GetCompanyByID (repo := repository.PostgresCompanyRepository)
         (api.Company.Id company) db1
       = ((Some company, None), db2)
    /\ api.Company.CompanyName company = api.CreateCompanyRequest.CompanyName req
    /\ api.Company.CompanyAddress company
       = api.CreateCompanyRequest.CompanyAddress req
    /\ api.Company.Jurisdiction company = api.CreateCompanyRequest.Jurisdiction req
    /\ (spec.fits 50 (api.CreateCompanyRequest.SecCode req) ->
        facts.request_of company = req)
    /\ sql.companies db2 = (sql.companies db ++ [company])%list.
Proof.
  intros Hvalid Hruns Hfresh.
  destruct (validated_columns req Hvalid) as [Hjurisdiction Hname].
  eexists. eexists. eexists. split.
  { unfold service.CreateCompany. rewrite Hvalid. unfold bind. postgres.
    rewrite (Postgres_Create_runs req db (runs_first db 1 Hruns)). reflexivity. }
  split.
  { rewrite GetCompanyByID_runs
      by exact (runs_first _ 0 (runs_next db 1 _ Hruns)).
    cbn [sql.companies api.Company.Id]. rewrite find_app.
    rewrite (find_where_id_absent db _ Hfresh). cbn [find].
    unfold sql.where_id at 1. cbn [api.Company.Id]. rewrite N.eqb_refl.
    reflexivity. }
  cbn [api.Company.CompanyName api.Company.CompanyAddress
       api.Company.Jurisdiction].
  split; [exact Hname|]. split; [reflexivity|]. split; [exact Hjurisdiction|].
  split; [|reflexivity].
  intros Hfits. unfold facts.request_of.
  cbn [api.Company.CompanyName api.Company.CompanyAddress
       api.Company.Jurisdiction api.Company.NatureOfBusiness
       api.Company.NumberOfDirectors api.Company.NumberOfShareholders
       api.Company.SecCode].
  rewrite Hname, Hjurisdiction, (sec_code_fits _ Hfits).
  destruct req; reflexivity.
Qed.

Lemma CreateCompany_then_GetCompanyByID_witness :
  (service.validateCreateRequest spaced_request = None
   /\ spec.runs db_acme 2
   /\ ~ spec.stored db_acme (sql.uuid (sql.turn db_acme)))
  /\ exists company db1 db2,
       service.CreateCompany (repo := repository.PostgresCompanyRepository)
         spaced_request db_acme = ((Some company, None), db1)
       /\ service.GetCompanyByID (repo := repository.PostgresCompanyRepository)
            (api.Company.Id company) db1
          = ((Some company, None), db2)
       /\ facts.request_of company = spaced_request.
Proof.
  assert (Hruns : spec.runs db_acme 2) by (intros k _; reflexivity).
  assert (Hfresh : ~ spec.stored db_acme (sql.uuid (sql.turn db_acme))).
  { intros [c [[<- | []] Hid]]. discriminate Hid. }
  split; [split; [reflexivity | split; assumption]|].
  destruct (CreateCompany_then_GetCompanyByID spaced_request db_acme
              eq_refl Hruns Hfresh)
    as (company & db1 & db2 & Hcreate & Hget & _ & _ & _ & Hreq & _).
  exists company, db1, db2. repeat split; try assumption.
  apply Hreq. exact I.
Defined.

Lemma find_filter_other {A : Type} (f g : A -> bool) (l : list A) :
  (forall x, f x = true -> g x = true) ->
  find f (filter g l) = find f l.
Proof.
  intros Himp. induction l as [| a l IH]; [reflexivity|].
  cbn [filter find]. destruct (f a) eqn:Hf.
  - rewrite (Himp a Hf). cbn [find]. rewrite Hf. reflexivity.
  - destruct (g a); [cbn [find]; rewrite Hf|]; exact IH.
Qed.

Lemma filter_length_split {A : Type} (f : A -> bool) (l : list A) :
  (List.length (filter f l) + List.length (filter (fun x => negb (f x)) l))%nat
  = List.length l.
Proof.
  induction l as [| a l IH]; [reflexivity|].
  cbn [filter]. destruct (f a); cbn [negb List.length]; lia.
Qed.

(** X11: when the statement runs, [DeleteCompany] removes the records with
    the identifier and no other: the table keeps every other record, in
    the order it had, a fetch of any other identifier answers as it did
    before, and the table shrinks by the number of records removed. *)
Theorem DeleteCompany_removes_only_that_identifier (db : sql.DB) (id : api.UUID) :
  sql.fault (sql.turn db) = None ->
  let db' := snd (service.DeleteCompany
                    (repo := repository.PostgresCompanyRepository) id db) in
  sql.companies db' = filter (fun c => negb (sql.where_id id c)) (sql.companies db)
  /\ (forall c, In c (sql.companies db')
                <-> In c (sql.companies db) /\ api.Company.Id c <> id)
  /\ (Z.of_nat (List.length (sql.companies db'))
      = Z.of_nat (List.length (sql.companies db))
        - Z.of_nat (List.length (facts.affected id db)))
  /\ (forall other, other <> id -> sql.fault (sql.turn db') = None ->
      fst (service.GetCompanyByID
             (repo := repository.PostgresCompanyRepository) other db')
      = fst (service.GetCompanyByID
               (repo := repository.PostgresCompanyRepository) other db)).
Proof.
  intros Hrun. cbv zeta. rewrite DeleteCompany_classifies. cbn [snd]. postgres.
  rewrite (Postgres_Delete_result id db Hrun). cbn [snd sql.companies].
  split; [reflexivity|]. split; [|split].
  - intros c. rewrite filter_In. unfold sql.where_id.
    rewrite negb_true_iff, N.eqb_neq. reflexivity.
  - unfold facts.affected.
    pose proof (filter_length_split (sql.where_id id) (sql.companies db)). lia.
  - intros other Hother Hrun'.
    rewrite (GetCompanyByID_runs other _ Hrun'), (GetCompanyByID_runs other db Hrun).
    cbn [fst sql.companies]. rewrite find_filter_other; [reflexivity|].
    intros c Hc. unfold sql.where_id in *. apply N.eqb_eq in Hc.
    apply negb_true_iff, N.eqb_neq. congruence.
Qed.

Lemma DeleteCompany_removes_only_that_identifier_witness :
  sql.fault (sql.turn pair) = None
  /\ sql.companies (snd (service.DeleteCompany
                           (repo := repository.PostgresCompanyRepository) 1%N pair))
     = [globex].
Proof.
  split; [reflexivity|].
  rewrite (proj1 (DeleteCompany_removes_only_that_identifier pair 1%N eq_refl)).
  reflexivity.
Defined.

(** ** Listing: the shape of a page *)



(** X13: a creation that succeeds adds exactly one to the total of every
    later list request whose filter its jurisdiction meets, and nothing to
    the others. *)
Theorem CreateCompany_adds_one_to_the_total (req : api.CreateCompanyRequest.t)
  (db : sql.DB) (limit offset : Z) (jurisdiction : option string) :
  service.validateCreateRequest req = None ->
  spec.runs db 3 -> 0 <= limit -> 0 <= offset ->
  exists company db1 page db2,
    service.CreateCompany (repo := repository.PostgresCompanyRepository) req db
    = ((Some company, None), db1)
    /\ repository.GetAll (CompanyRepository := repository.PostgresCompanyRepository)
         limit offset jurisdiction db1
       = ((page,
           Z.of_nat (List.length (spec.matching jurisdiction db))
           + match jurisdiction with
             | None => 1
             | Some j =>
               if String.eqb (api.CreateCompanyRequest.Jurisdiction req) j
               then 1 else 0
             end,
           None), db2).
Proof.
  intros Hvalid Hruns Hlimit Hoffset.
  eexists. eexists. eexists. eexists. split.
  { unfold service.CreateCompany. rewrite Hvalid. unfold bind. postgres.
    rewrite (Postgres_Create_runs req db (runs_first db 2 Hruns)). reflexivity. }
  postgres.
  rewrite (Postgres_GetAll_runs limit offset jurisdiction _ Hlimit Hoffset
             (runs_next db 2 _ Hruns)).
  f_equal. f_equal. f_equal.
  unfold spec.matching. cbn [sql.companies].
  rewrite filter_app, length_app, Nat2Z.inj_add. f_equal.
  cbn [filter]. unfold sql.where_jurisdiction. cbn [api.Company.Jurisdiction].
  rewrite (proj1 (validated_columns req Hvalid)).
  destruct jurisdiction as [j|]; [|reflexivity].
  destruct (String.eqb (api.CreateCompanyRequest.Jurisdiction req) j); reflexivity.
Qed.

Lemma CreateCompany_adds_one_to_the_total_witness :
  (service.validateCreateRequest spaced_request = None
   /\ spec.runs pair 3 /\ 0 <= 20 /\ 0 <= 0)
  /\ exists company db1 page db2,
       service.CreateCompany (repo := repository.PostgresCompanyRepository)
         spaced_request pair = ((Some company, None), db1)
       /\ repository.GetAll
            (CompanyRepository := repository.PostgresCompanyRepository)
            20 0 (Some "UK") db1
          = ((page, 2, None), db2).
Proof.
  assert (Hruns : spec.runs pair 3) by (intros k _; reflexivity).
  split; [split; [reflexivity | split; [exact Hruns | lia]]|].
  destruct (CreateCompany_adds_one_to_the_total spaced_request pair 20 0 (Some "UK")
              eq_refl Hruns ltac:(lia) ltac:(lia))
    as (company & db1 & page & db2 & Hcreate & Hget).
  exists company, db1, page, db2. split; [exact Hcreate | exact Hget].
Defined.

(** ** An invariant of the table *)

Lemma Forall_filter {A : Type} (P : A -> Prop) (f : A -> bool) (l : list A) :
  Forall P l -> Forall P (filter f l).
Proof.
  intros Hall. apply Forall_forall. intros x Hin. apply filter_In in Hin.
  exact (proj1 (Forall_forall P l) Hall x (proj1 Hin)).
Qed.

(** X14: the rules of validation are an invariant of the table under the
    four operations of the service: if every stored row meets them, every
    row stored after [ListCompanies], [GetCompanyByID], [CreateCompany] or
    [DeleteCompany], with any argument and whether or not the store fails,
    meets them; such a row has an allowed jurisdiction, a name and an
    address that are not blank, a name of at most 255 bytes, and its
    numbers of directors and shareholders, when present, within bounds. *)
Theorem service_keeps_stored_rows_valid (db : sql.DB) :
  Forall facts.valid_row (sql.companies db) ->
  (forall params,
   Forall facts.valid_row
     (sql.companies
        (snd (service.ListCompanies (repo := repository.PostgresCompanyRepository)
                params db))))
  /\ (forall id,
      Forall facts.valid_row
        (sql.companies
           (snd (service.GetCompanyByID
                   (repo := repository.PostgresCompanyRepository) id db))))
  /\ (forall req,
      Forall facts.valid_row
        (sql.companies
           (snd (service.CreateCompany
                   (repo := repository.PostgresCompanyRepository) req db))))
  /\ (forall id,
      Forall facts.valid_row
        (sql.companies
           (snd (service.DeleteCompany
                   (repo := repository.PostgresCompanyRepository) id db))))
  /\ (forall c, In c (sql.companies db) ->
      In (api.Company.Jurisdiction c) ["UK"; "Singapore"; "Caymens"]
      /\ strings.TrimSpace (api.Company.CompanyName c) <> ""
      /\ len (api.Company.CompanyName c) <= 255
      /\ strings.TrimSpace (api.Company.CompanyAddress c) <> ""
      /\ (forall n, api.Company.NumberOfDirectors c = Some n -> 1 <= n <= 100)
      /\ (forall n, api.Company.NumberOfShareholders c = Some n -> 1 <= n <= 1000)).
Proof.
  intros Hvalid. split; [|split; [|split; [|split]]].
  - intros params. rewrite ListCompanies_rows. exact Hvalid.
  - intros id. rewrite GetCompanyByID_rows. exact Hvalid.
  - intros req. destruct (CreateCompany_rows req db)
      as [-> | (Hreq & company & -> & Hj & Hn & Ha & Hb & Hd & Hs & Hc)];
      [exact Hvalid|].
    apply Forall_app. split; [exact Hvalid|]. constructor; [|constructor].
    unfold facts.valid_row, facts.request_of.
    rewrite Hj, Hn, Ha, Hb, Hd, Hs, Hc. destruct req. exact Hreq.
  - intros id. destruct (DeleteCompany_rows id db) as [-> | ->];
      [exact Hvalid | apply Forall_filter, Hvalid].
  - intros c Hin.
    pose proof (proj1 (Forall_forall _ _) Hvalid c Hin) as Hc.
    apply validateCreateRequest_passes in Hc.
    destruct Hc as (Hname & Hlen & Haddr & Hjur & Hdir & Hsh).
    unfold spec.name_required, spec.address_required, spec.nonempty_after_trim,
      spec.name_at_most_255_as_given, spec.jurisdiction_allowed,
      spec.directors_in_range, spec.shareholders_in_range, spec.within,
      facts.request_of in *.
    cbn [api.CreateCompanyRequest.Jurisdiction api.CreateCompanyRequest.CompanyName
         api.CreateCompanyRequest.CompanyAddress
         api.CreateCompanyRequest.NumberOfDirectors
         api.CreateCompanyRequest.NumberOfShareholders] in *.
    split.
    { destruct (in_dec string_dec _ _) as [Hallowed | _];
        [exact Hallowed | discriminate]. }
    split; [apply String.eqb_neq, negb_true_iff, Hname|].
    split; [apply Z.leb_le, Hlen|].
    split; [apply String.eqb_neq, negb_true_iff, Haddr|].
    split.
    + intros n Hn. rewrite Hn in Hdir. apply andb_true_iff in Hdir. lia.
    + intros n Hn. rewrite Hn in Hsh. apply andb_true_iff in Hsh. lia.
Qed.

Lemma service_keeps_stored_rows_valid_witness :
  Forall facts.valid_row (sql.companies db_acme)
  /\ Forall facts.valid_row
       (sql.companies
          (snd (service.CreateCompany
                  (repo := repository.PostgresCompanyRepository)
                  spaced_request db_acme))).
Proof.
  assert (Hvalid : Forall facts.valid_row (sql.companies db_acme))
    by (constructor; [reflexivity | constructor]).
  split; [exact Hvalid|].
  apply (service_keeps_stored_rows_valid db_acme Hvalid).
Defined.

(** X15: the jurisdiction filter of a list request is not checked against
    the allowed values: when every stored row meets the rules of
    validation, a request that filters on any other value succeeds with an
    empty page and a total of 0. *)
Theorem ListCompanies_unknown_jurisdiction (db : sql.DB)
  (params : api.GetCompaniesParams.t) (j : string) :
  Forall facts.valid_row (sql.companies db) ->
  api.GetCompaniesParams.Jurisdiction params = Some j ->
  ~ In j ["UK"; "Singapore"; "Caymens"] ->
  spec.limit_in_range params -> spec.offset_in_range params ->
  spec.runs db 2 ->
  exists db',
    service.ListCompanies (repo := repository.PostgresCompanyRepository) params db
    = ((Some (api.CompaniesResponse.mk [] 0
                (spec.effective_limit params) (spec.effective_offset params)),
        None), db').
Proof.
  intros Hvalid Hfilter Hunknown Hlimit Hoffset Hruns.
  rewrite (ListCompanies_calls_GetAll params db Hlimit Hoffset). cbv zeta. postgres.
  rewrite Postgres_GetAll_runs;
    [|unfold spec.limit_in_range in Hlimit; lia | exact Hoffset | exact Hruns].
  assert (Hnone : spec.matching (api.GetCompaniesParams.Jurisdiction params) db = []).
  { rewrite Hfilter. unfold spec.matching.
    assert (Hlen : List.length (filter (sql.where_jurisdiction (Some j))
                                  (sql.companies db)) = 0%nat).
    { apply filter_length_zero. intros c Hin. cbn [sql.where_jurisdiction].
      apply String.eqb_neq. intros Heq.
      pose proof (proj1 (Forall_forall _ _) Hvalid c Hin) as Hc.
      apply validateCreateRequest_passes in Hc.
      destruct Hc as (_ & _ & _ & Hjur & _).
      unfold spec.jurisdiction_allowed, facts.request_of in Hjur.
      cbn [api.CreateCompanyRequest.Jurisdiction] in Hjur.
      destruct (in_dec string_dec _ _) as [Hallowed | _]; [|discriminate].
      apply Hunknown. rewrite <- Heq. exact Hallowed. }
    destruct (filter _ _); [reflexivity | discriminate]. }
  rewrite Hnone. cbn [sql.order_by_date_created_desc fold_right List.length].
  rewrite skipn_nil, firstn_nil. eexists. reflexivity.
Qed.

Lemma ListCompanies_unknown_jurisdiction_witness :
  exists db',
    service.ListCompanies (repo := repository.PostgresCompanyRepository)
      (api.GetCompaniesParams.mk None None (Some "uk")) pair
    = ((Some (api.CompaniesResponse.mk [] 0 20 0), None), db').
Proof.
  apply (ListCompanies_unknown_jurisdiction pair
           (api.GetCompaniesParams.mk None None (Some "uk")) "uk").
  - constructor; [reflexivity | constructor; [reflexivity | constructor]].
  - reflexivity.
  - intros [H | [H | [H | []]]]; discriminate H.
  - unfold spec.limit_in_range. cbn. lia.
  - unfold spec.offset_in_range. cbn. lia.
  - intros k _. reflexivity.
Defined.

(** ** Validation: blank names and addresses *)

Lemma asciiSpace_is_ascii (b : Z) :
  strings.asciiSpace b = true -> (utf8.RuneSelf <=? b) = false.
Proof.
  unfold strings.asciiSpace, utf8.RuneSelf. intros H.
  repeat (apply orb_true_iff in H; destruct H as [H | H]);
    apply Z.eqb_eq in H; subst b; reflexivity.
Qed.

Lemma TrimSpace_start_blank (l : list ascii) :
  Forall (fun c => strings.asciiSpace (byte_of c) = true) l ->
  strings.TrimSpace_start l = inl [].
Proof.
  induction 1 as [| c l Hc _ IH]; [reflexivity|].
  cbn [strings.TrimSpace_start].
  rewrite (asciiSpace_is_ascii _ Hc), Hc. exact IH.
Qed.

Lemma TrimSpace_stop_nonempty (c : ascii) (t : list ascii) (n : nat) :
  Forall (fun c => byte_of c < utf8.RuneSelf) (c :: t) ->
  strings.asciiSpace (byte_of c) = false ->
  strings.TrimSpace_stop (c :: t) (S n) <> [].
Proof.
  intros Hascii Hc. induction n as [| n IH].
  - cbn [strings.TrimSpace_stop nth].
    inversion Hascii as [| ? ? Hc0 _]; subst.
    destruct (Z.leb_spec utf8.RuneSelf (byte_of c)); [lia|].
    rewrite Hc. cbn. discriminate.
  - cbn [strings.TrimSpace_stop].
    destruct (utf8.RuneSelf <=? byte_of (nth (S n) (c :: t) zero)) eqn:Hhigh.
    + exfalso. apply Z.leb_le in Hhigh.
      destruct (Nat.lt_ge_cases (S n) (List.length (c :: t))) as [Hin | Hout].
      * pose proof (proj1 (Forall_forall _ _) Hascii _ (nth_In _ zero Hin)) as Hlow.
        cbv beta in Hlow. lia.
      * rewrite (nth_overflow _ _ Hout) in Hhigh. cbn in Hhigh.
        unfold utf8.RuneSelf in Hhigh. lia.
    + destruct (negb (strings.asciiSpace _)); [cbn; discriminate | exact IH].
Qed.

Lemma TrimSpace_start_ascii (l : list ascii) :
  Forall (fun c => byte_of c < utf8.RuneSelf) l ->
  ~ Forall (fun c => strings.asciiSpace (byte_of c) = true) l ->
  exists c t,
    strings.TrimSpace_start l = inl (c :: t)
    /\ Forall (fun c => byte_of c < utf8.RuneSelf) (c :: t)
    /\ strings.asciiSpace (byte_of c) = false.
Proof.
  induction 1 as [| c l Hc Hl IH]; intros Hnot.
  - exfalso. apply Hnot. constructor.
  - cbn [strings.TrimSpace_start].
    destruct (Z.leb_spec utf8.RuneSelf (byte_of c)); [lia|].
    destruct (strings.asciiSpace (byte_of c)) eqn:Hspace; cbn [negb].
    + apply IH. intros Hblank. apply Hnot. constructor; assumption.
    + exists c, l. split; [reflexivity|]. split; [constructor; assumption|].
      exact Hspace.
Qed.

Lemma string_of_list_ascii_nonempty (l : list ascii) :
  l <> [] -> string_of_list_ascii l <> "".
Proof. destruct l; [contradiction | discriminate]. Qed.

Lemma TrimSpace_ascii_blank (s : string) :
  facts.ascii_only s -> (strings.TrimSpace s = "" <-> facts.blank s).
Proof.
  unfold facts.ascii_only, facts.blank, strings.TrimSpace. intros Hascii. split.
  - intros Hempty.
    destruct (Forall_dec (fun c => strings.asciiSpace (byte_of c) = true)
                (fun c => bool_dec (strings.asciiSpace (byte_of c)) true)
                (list_ascii_of_string s)) as [Hblank | Hnot]; [exact Hblank|].
    exfalso.
    destruct (TrimSpace_start_ascii _ Hascii Hnot) as (c & t & Hstart & Hct & Hc).
    rewrite Hstart in Hempty. cbn [List.length] in Hempty.
    exact (string_of_list_ascii_nonempty _
             (TrimSpace_stop_nonempty c t _ Hct Hc) Hempty).
  - intros Hblank. rewrite (TrimSpace_start_blank _ Hblank). reflexivity.
Qed.

(** X16: for a company name made of ASCII bytes, [validateCreateRequest]
    answers "company name is required" exactly when the name is empty or
    made only of tabs, line feeds, vertical tabs, form feeds, carriage
    returns and spaces; and when the name passes its two rules, an address
    made of ASCII bytes is answered "company address is required" exactly
    in the same case. *)
Theorem validateCreateRequest_blank_is_required (req : api.CreateCompanyRequest.t) :
  facts.ascii_only (api.CreateCompanyRequest.CompanyName req) ->
  (service.validateCreateRequest req = Some (Errorf "company name is required")
   <-> facts.blank (api.CreateCompanyRequest.CompanyName req))
  /\ (facts.ascii_only (api.CreateCompanyRequest.CompanyAddress req) ->
      ~ facts.blank (api.CreateCompanyRequest.CompanyName req) ->
      len (api.CreateCompanyRequest.CompanyName req) <= 255 ->
      (service.validateCreateRequest req
       = Some (Errorf "company address is required")
       <-> facts.blank (api.CreateCompanyRequest.CompanyAddress req))).
Proof.
  intros Hname.
  pose proof (TrimSpace_ascii_blank _ Hname) as Hblank.
  rewrite validateCreateRequest_first_failure.
  unfold spec.rules, spec.rules_after. cbn [spec.first_failure].
  unfold spec.name_required, spec.address_required, spec.nonempty_after_trim,
    spec.name_at_most_255_as_given.
  split.
  - rewrite <- Hblank.
    destruct (String.eqb_spec
                (strings.TrimSpace (api.CreateCompanyRequest.CompanyName req)) "")
      as [Hempty | Hfull]; cbn [negb].
    + split; [intros _; exact Hempty | reflexivity].
    + split; [|contradiction].
      repeat match goal with
             | |- context [if ?b then _ else _] => destruct b
             end; discriminate.
  - intros Haddress Hfull Hlen.
    pose proof (TrimSpace_ascii_blank _ Haddress) as Hblank'.
    rewrite <- Hblank in Hfull. apply String.eqb_neq in Hfull. rewrite Hfull.
    cbn [negb]. apply Z.leb_le in Hlen. rewrite Hlen. rewrite <- Hblank'.
    destruct (String.eqb_spec
                (strings.TrimSpace (api.CreateCompanyRequest.CompanyAddress req)) "")
      as [Hempty | Hfull']; cbn [negb].
    + split; [intros _; exact Hempty | reflexivity].
    + split; [|contradiction].
      repeat match goal with
             | |- context [if ?b then _ else _] => destruct b
             end; discriminate.
Qed.

Lemma validateCreateRequest_blank_is_required_witness :
  facts.ascii_only (api.CreateCompanyRequest.CompanyName blank_request)
  /\ facts.blank (api.CreateCompanyRequest.CompanyName blank_request)
  /\ service.validateCreateRequest blank_request
     = Some (Errorf "company name is required").
Proof.
  assert (Hascii : facts.ascii_only (api.CreateCompanyRequest.CompanyName blank_request))
    by (repeat constructor).
  assert (Hblank : facts.blank (api.CreateCompanyRequest.CompanyName blank_request))
    by (repeat constructor).
  split; [exact Hascii|]. split; [exact Hblank|].
  apply (proj1 (validateCreateRequest_blank_is_required blank_request Hascii)).
  exact Hblank.
Defined.

(** ** The service and the repository: one call at most *)

(** X17: each operation of the service calls the repository at most once:
    [GetCompanyByID] and [DeleteCompany] call [GetByID] and [Delete] exactly
    once with the identifier they were given; [ListCompanies] calls [GetAll]
    once with the limit and offset in effect, or not at all;
    [CreateCompany] calls [Create] once with the request, or not at all. *)
Theorem service_calls_the_repository_at_most_once {St : Type}
  (R : repository.CompanyRepository St) (calls : list repository.Call) (st : St) :
  (forall params,
   let calls' := fst (snd (service.ListCompanies (repo := repository.Recording R)
                             params (calls, st))) in
   calls' = calls
   \/ calls' = (calls ++ [repository.CallGetAll (spec.effective_limit params)
                            (spec.effective_offset params)
                            (api.GetCompaniesParams.Jurisdiction params)])%list)
  /\ (forall id,
      fst (snd (service.GetCompanyByID (repo := repository.Recording R)
                  id (calls, st)))
      = (calls ++ [repository.CallGetByID id])%list)
  /\ (forall req,
      let calls' := fst (snd (service.CreateCompany (repo := repository.Recording R)
                                req (calls, st))) in
      calls' = calls \/ calls' = (calls ++ [repository.CallCreate req])%list)
  /\ (forall id,
      fst (snd (service.DeleteCompany (repo := repository.Recording R)
                  id (calls, st)))
      = (calls ++ [repository.CallDelete id])%list).
Proof.
  split; [|split; [|split]].
  - intros params. cbv zeta.
    destruct (Z_le_dec 1 (spec.effective_limit params)) as [Hlo|Hlo];
      [destruct (Z_le_dec (spec.effective_limit params) 100) as [Hhi|Hhi]|];
      [|left; rewrite ListCompanies_rejects_limit
          by (unfold spec.limit_in_range; lia); reflexivity ..].
    destruct (Z_le_dec 0 (spec.effective_offset params)) as [Ho|Ho];
      [|left; rewrite ListCompanies_rejects_offset
          by (unfold spec.limit_in_range, spec.offset_in_range; lia); reflexivity].
    right. rewrite ListCompanies_calls_GetAll
      by (unfold spec.limit_in_range, spec.offset_in_range; lia).
    cbv zeta.
    change (repository.GetAll (CompanyRepository := repository.Recording R)
              (spec.effective_limit params) (spec.effective_offset params)
              (api.GetCompaniesParams.Jurisdiction params) (calls, st))
      with (repository.recording
              (repository.CallGetAll (spec.effective_limit params)
                 (spec.effective_offset params)
                 (api.GetCompaniesParams.Jurisdiction params))
              (repository.GetAll (CompanyRepository := R)
                 (spec.effective_limit params) (spec.effective_offset params)
                 (api.GetCompaniesParams.Jurisdiction params)) (calls, st)).
    unfold repository.recording.
    destruct (repository.GetAll _ _ _ st) as [[[companies total] [e|]] st'];
      reflexivity.
  - intros id. rewrite GetCompanyByID_classifies. cbn [snd].
    change (repository.GetByID (CompanyRepository := repository.Recording R)
              id (calls, st))
      with (repository.recording (repository.CallGetByID id)
              (repository.GetByID (CompanyRepository := R) id) (calls, st)).
    unfold repository.recording.
    destruct (repository.GetByID id st) as [a st']. reflexivity.
  - intros req. cbv zeta. unfold service.CreateCompany.
    destruct (service.validateCreateRequest req); [left; reflexivity|].
    right. unfold bind.
    change (repository.Create (CompanyRepository := repository.Recording R)
              req (calls, st))
      with (repository.recording (repository.CallCreate req)
              (repository.Create (CompanyRepository := R) req) (calls, st)).
    unfold repository.recording.
    destruct (repository.Create req st) as [[company [e|]] st']; reflexivity.
  - intros id. rewrite DeleteCompany_classifies. cbn [snd].
    change (repository.Delete (CompanyRepository := repository.Recording R)
              id (calls, st))
      with (repository.recording (repository.CallDelete id)
              (repository.Delete (CompanyRepository := R) id) (calls, st)).
    unfold repository.recording.
    destruct (repository.Delete id st) as [a st']. reflexivity.
Qed.

(** ** Configuration *)

Lemma getEnv_nonempty (env : config.Environ) (key defaultValue : string) :
  defaultValue <> "" -> config.getEnv env key defaultValue <> "".
Proof.
  intros Hdefault. unfold config.getEnv.
  destruct (String.eqb_spec (config.Getenv env key) "") as [Hempty | Hfull];
    cbn [negb]; assumption.
Qed.

Lemma getEnv_set (env : config.Environ) (key defaultValue value : string) :
  env key = Some value -> value <> "" -> config.getEnv env key defaultValue = value.
Proof.
  intros Hset Hfull. unfold config.getEnv, config.Getenv. rewrite Hset.
  apply String.eqb_neq in Hfull. rewrite Hfull. reflexivity.
Qed.

Lemma getEnv_unset (env : config.Environ) (key defaultValue : string) :
  env key = None \/ env key = Some "" ->
  config.getEnv env key defaultValue = defaultValue.
Proof.
  intros [Hunset | Hempty]; unfold config.getEnv, config.Getenv;
    [rewrite Hunset | rewrite Hempty]; reflexivity.
Qed.

(** X18: no field of the configuration [Load] returns is empty, whatever
    the environment; a variable set to the empty string counts as unset;
    the port is the value of PORT when that is set and not empty, and 8080
    otherwise. *)
Theorem Load_never_yields_an_empty_setting (env : config.Environ) :
  (config.Port (config.Load env) <> ""
   /\ config.PostgresDB (config.Load env) <> ""
   /\ config.PostgresPass (config.Load env) <> ""
   /\ config.PostgresUser (config.Load env) <> ""
   /\ config.PostgresHost (config.Load env) <> ""
   /\ config.PostgresPort (config.Load env) <> "")
  /\ (forall env',
      (forall key, env' key = env key
                   \/ (env key = None /\ env' key = Some "")
                   \/ (env key = Some "" /\ env' key = None)) ->
      config.Load env' = config.Load env)
  /\ (forall port, env "PORT" = Some port -> port <> "" ->
      config.Port (config.Load env) = port)
  /\ (env "PORT" = None \/ env "PORT" = Some "" ->
      config.Port (config.Load env) = "8080").
Proof.
  split; [|split; [|split]].
  - unfold config.Load. cbn [config.Port config.PostgresDB config.PostgresPass
                              config.PostgresUser config.PostgresHost
                              config.PostgresPort].
    repeat split; apply getEnv_nonempty; discriminate.
  - intros env' Hsame.
    assert (Hget : forall key, config.Getenv env' key = config.Getenv env key).
    { intros key. unfold config.Getenv.
      destruct (Hsame key) as [-> | [[-> ->] | [-> ->]]]; reflexivity. }
    unfold config.Load, config.getEnv. rewrite !Hget. reflexivity.
  - intros port Hset Hfull. apply getEnv_set; assumption.
  - intros Hunset. apply getEnv_unset. exact Hunset.
Qed.

Example Load_some_environ :
  config.Load some_environ
  = config.mk "9090" "lothrop_db" "password" "postgres" "localhost" "5432".
Proof. reflexivity. Qed.

(** ** Deleting twice *)

(** X19: when both statements run, a second [DeleteCompany] of the same
    identifier always answers "company not found", whether or not the
    first one removed a record, and changes nothing in the table. *)
Theorem DeleteCompany_twice (db : sql.DB) (id : api.UUID) :
  spec.runs db 2 ->
  let db1 := snd (service.DeleteCompany
                    (repo := repository.PostgresCompanyRepository) id db) in
  let second := service.DeleteCompany
                  (repo := repository.PostgresCompanyRepository) id db1 in
  fst second = Some (Errorf "company not found")
  /\ sql.companies (snd second) = sql.companies db1
  /\ ~ spec.stored db1 id.
Proof.
  intros Hruns. cbv zeta.
  rewrite (DeleteCompany_classifies id db). cbn [snd]. postgres.
  rewrite (Postgres_Delete_result id db (runs_first db 1 Hruns)). cbn [snd].
  set (db1 := sql.mkDB _ _ _).
  assert (Hrun1 : sql.fault (sql.turn db1) = None)
    by exact (runs_first _ 0 (runs_next db 1 _ Hruns)).
  assert (Hgone : forall c, In c (sql.companies db1) -> sql.where_id id c = false).
  { intros c Hin. subst db1. cbn [sql.companies] in Hin.
    apply filter_In in Hin. apply negb_true_iff. exact (proj2 Hin). }
  rewrite DeleteCompany_classifies. postgres.
  rewrite (Postgres_Delete_result id db1 Hrun1). cbn [fst snd sql.companies].
  rewrite (proj2 (filter_length_zero _ _) Hgone). cbn.
  split; [reflexivity|]. split.
  - apply filter_keeps_all. intros c Hin. rewrite (Hgone c Hin). reflexivity.
  - apply not_stored_iff. exact Hgone.
Qed.

Lemma DeleteCompany_twice_witness :
  spec.runs pair 2
  /\ fst (service.DeleteCompany (repo := repository.PostgresCompanyRepository) 1%N
            (snd (service.DeleteCompany
                    (repo := repository.PostgresCompanyRepository) 1%N pair)))
     = Some (Errorf "company not found").
Proof.
  assert (Hruns : spec.runs pair 2) by (intros k _; reflexivity).
  split; [exact Hruns|].
  apply (DeleteCompany_twice pair 1%N Hruns).
Defined.

(** ** Requests through the boundary and the store *)

Example GET_company_2 :
  fst (handlers.GetCompanyByID (repo := repository.PostgresCompanyRepository)
         decimal_id (path_id "2") ([], pair))
  = http.mkResponse "application/json" 200 (Some (http.CompanyData (Some globex))).
Proof. reflexivity. Qed.

Example GET_company_9 :
  fst (handlers.GetCompanyByID (repo := repository.PostgresCompanyRepository)
         decimal_id (path_id "9") ([], pair))
  = spec.opaque 404 "Company not found".
Proof. reflexivity. Qed.

Example GET_company_malformed :
  let '(response, (_, db')) :=
    handlers.GetCompanyByID (repo := repository.PostgresCompanyRepository)
      decimal_id (path_id "2x") ([], pair) in
  response = spec.opaque 400 "Invalid company ID format" /\ db' = pair.
Proof. split; reflexivity. Qed.

Example DELETE_company_1 :
  let '(response, (_, db')) :=
    handlers.DeleteCompany (repo := repository.PostgresCompanyRepository)
      decimal_id (path_id "1") ([], pair) in
  response = http.mkResponse "" 204 None /\ sql.companies db' = [globex].
Proof. split; reflexivity. Qed.
